(** * Mark Six grid adjacency analysis (scripts/analyze_grid_adjacency.py)

    A shallow embedding of the analysis script: the 10x5 board mapping, the
    Chebyshev neighbourhoods in clipped and toroidal geometry, the union of
    neighbourhoods, the hypergeometric pair statistics and their aggregation.

    Python [int] is [Z]; [//] and [%] by a positive literal are [Z.div] and
    [Z.modulo] (both floor); [set] is [gset Z]; [float] is the kernel's
    binary64 [float]; a call that can raise returns a [result]. *)

From Stdlib Require Import ZArith QArith Qabs Lia List Bool.
From Stdlib Require Import PrimFloat FloatOps SpecFloat FloatAxioms Uint63.
From stdpp Require Import base tactics option list gmap sets strings sorting.

Local Open Scope Z_scope.

(** ** The Python operations the script relies on *)

Module Py.

(** The exceptions the built-in operations of the script can raise.
    [InvalidNumber] is the error the specification names; no statement of
    the script raises it. *)
Inductive exn : Set :=
| ZeroDivisionError
| OverflowError
| ValueError
| InvalidNumber.

Inductive result (A : Type) : Type :=
| Ok (a : A)
| Raise (e : exn).
Global Arguments Ok {A} a.
Global Arguments Raise {A} e.

Definition bind {A B} (r : result A) (k : A -> result B) : result B :=
  match r with
  | Ok a => k a
  | Raise e => Raise e
  end.

(** [range(a, b)]: a, a+1, ..., b-1; empty when [b <= a]. *)
Definition range (a b : Z) : list Z := seqZ a (b - a).

(** [len] of a list, as a Python int. *)
Definition len {A} (l : list A) : Z := Z.of_nat (length l).

(** [sum] of ints: from 0, left to right. *)
Definition sum_int (l : list Z) : Z := foldl Z.add 0 l.

(** *** Floats

    A Python float is an IEEE binary64, rounded to nearest, ties to even.
    The integers of magnitude [2^1024 - 2^970] and above round to
    infinity; a conversion or an int division that would do so raises
    [OverflowError] instead. *)
Definition float_limit : Z := 2 ^ 1024 - 2 ^ 970.

(** The nearest binary64 to an integer. *)
Definition round_int (z : Z) : float :=
  SF2Prim (binary_normalize prec emax z 0 false).

(** [float(z)], also the conversion of the int operand of a mixed
    int/float operation. *)
Definition float_of_int (z : Z) : result float :=
  if Z.abs z <? float_limit then Ok (round_int z) else Raise OverflowError.

Definition int_as_spec (z : Z) : spec_float :=
  match z with
  | Z0 => S754_zero false
  | Zpos p => S754_finite false p 0
  | Zneg p => S754_finite true p 0
  end.

(** [a / b] on ints: the exact quotient, rounded once. *)
Definition int_truediv (a b : Z) : result float :=
  if b =? 0 then Raise ZeroDivisionError
  else if Z.abs a <? float_limit * Z.abs b
       then Ok (SF2Prim (SFdiv prec emax (int_as_spec a) (int_as_spec b)))
       else Raise OverflowError.

(** [x / y] on floats. *)
Definition float_truediv (x y : float) : result float :=
  if PrimFloat.is_zero y then Raise ZeroDivisionError
  else Ok (PrimFloat.div x y).

(** [math.sqrt(x)]. *)
Definition math_sqrt (x : float) : result float :=
  if PrimFloat.ltb x PrimFloat.zero then Raise ValueError
  else Ok (PrimFloat.sqrt x).

(** [sum] of floats: the int start value 0 is converted by the first
    addition, then the items are added left to right.  (On an empty
    sequence [sum] returns the int 0, which compares and divides like
    0.0.  CPython 3.12 and later compensate the rounding of this sum; the
    theorems on [summarize] speak of the totals and do not depend on how
    they are rounded.) *)
Definition sum_float (l : list float) : float :=
  foldl PrimFloat.add PrimFloat.zero l.

(** The rational a finite float stands for. *)
Definition float_value (f : float) : option Q :=
  match Prim2SF f with
  | S754_zero _ => Some 0%Q
  | S754_finite s m e =>
      let v := match e with
               | Zneg p => Qmake (Zpos m) (2 ^ p)%positive
               | _ => inject_Z (Zpos m * 2 ^ e)
               end in
      Some (if s then Qopp v else v)
  | S754_infinity _ | S754_nan => None
  end.

End Py.

(** Sequencing of calls that can raise, in stdpp's monad notation
    [x ← r; k]. *)
#[global] Instance result_ret : MRet Py.result := @Py.Ok.
#[global] Instance result_bind : MBind Py.result :=
  fun A B k r => Py.bind r k.

(** ** Board geometry *)

Definition ROWS : Z := 10.
Definition COLS : Z := 5.
Definition POP_SIZE : Z := 49.

(** [pos(n)]: the (row, column) of a number. *)
Definition pos (n : Z) : Z * Z :=
  let c := (n - 1) / 10 + 1 in
  let r := (n - 1) mod 10 + 1 in
  (r, c).

(** [num(r, c)]: the number of a cell; 50 for the cell (10, 5). *)
Definition num (r c : Z) : Z := (c - 1) * 10 + r.

Definition chebyshev_torus (a b : Z * Z) : Z :=
  let dr := Z.abs (a.1 - b.1) in
  let dc := Z.abs (a.2 - b.2) in
  let dr := Z.min dr (ROWS - dr) in
  let dc := Z.min dc (COLS - dc) in
  Z.max dr dc.

(** [neighborhood(seed, radius, wrap)]: the loops add to the set [cells],
    which is threaded through them as the accumulator of the folds. *)
Definition neighborhood (seed radius : Z) (wrap : bool) : gset Z :=
  let '(r0, c0) := pos seed in
  let cells : gset Z := ∅ in
  if wrap then
    foldl (fun cells n =>
             if bool_decide (chebyshev_torus (r0, c0) (pos n) <= radius)
             then cells ∪ {[ n ]} else cells)
          cells (Py.range 1 50)
  else
    let rmin := Z.max 1 (r0 - radius) in
    let rmax := Z.min ROWS (r0 + radius) in
    let cmin := Z.max 1 (c0 - radius) in
    let cmax := Z.min COLS (c0 + radius) in
    foldl (fun cells r =>
             foldl (fun cells c =>
                      let n := num r c in
                      if bool_decide (1 <= n <= 49)
                      then cells ∪ {[ n ]} else cells)
                   cells (Py.range cmin (cmax + 1)))
          cells (Py.range rmin (rmax + 1)).

Definition union_neighborhood (seeds : list Z) (radius : Z)
    (wrap exclude_center : bool) : gset Z :=
  let U : gset Z :=
    foldl (fun U s => U ∪ neighborhood s radius wrap) ∅ seeds in
  if exclude_center then U ∖ list_to_set seeds else U.


(** ** Pair statistics *)

Record PairResult : Set := {
  U_size : Z;
  hits : Z;
  exp : float;
  var : float
}.

Definition pair_stats (prev_nums curr_nums : list Z) (radius : Z)
    (wrap exclude_center : bool) : Py.result PairResult :=
  let U := union_neighborhood prev_nums radius wrap exclude_center in
  let K := Z.of_nat (size U) in
  let hits :=
    Py.sum_int ((fun _ => 1) <$> filter (fun n => n ∈ U) curr_nums) in
  let N := POP_SIZE in
  let n := Py.len curr_nums in
  p ← Py.int_truediv K N;
  nf ← Py.float_of_int n;
  let exp := PrimFloat.mul nf p in
  nf' ← Py.float_of_int n;
  one ← Py.float_of_int 1;
  fpc ← Py.int_truediv (N - n) (N - 1);
  let var :=
    PrimFloat.mul (PrimFloat.mul (PrimFloat.mul nf' p) (PrimFloat.sub one p))
                  fpc in
  mret {| U_size := K; hits := hits; exp := exp; var := var |}.

(** ** Aggregation *)

Record SummaryResult : Set := {
  pairs : Z;
  total_hits : Z;
  total_exp : float;
  total_var : float;
  z_score : float;
  avg_hits_per_pair : float;
  avg_exp_per_pair : float;
  avg_U_size : float;
  avg_U_cover_pct : float;
  hist_hits : list (Z * Z)
}.

(** [Counter(keys)]: how often each key occurs. *)
Definition Counter (keys : list Z) : gmap Z Z :=
  foldl (fun h k => <[ k := default 0 (h !! k) + 1 ]> h) ∅ keys.

Definition key_le (a b : Z * Z) : Prop := a.1 <= b.1.
#[global] Instance key_le_dec (a b : Z * Z) : Decision (key_le a b) :=
  Z_le_dec a.1 b.1.

Definition summarize (ps : list PairResult) : Py.result SummaryResult :=
  let total_hits := Py.sum_int (hits <$> ps) in
  let total_exp := Py.sum_float (exp <$> ps) in
  let total_var := Py.sum_float (var <$> ps) in
  z ← (if PrimFloat.ltb PrimFloat.zero total_var
       then hf ← Py.float_of_int total_hits;
            sd ← Py.math_sqrt total_var;
            Py.float_truediv (PrimFloat.sub hf total_exp) sd
       else mret PrimFloat.nan);
  let hist := Counter (hits <$> ps) in
  avg_U ← Py.int_truediv (Py.sum_int (U_size <$> ps)) (Py.len ps);
  avg_hits ← Py.int_truediv total_hits (Py.len ps);
  lf ← Py.float_of_int (Py.len ps);
  avg_exp ← Py.float_truediv total_exp lf;
  hundred ← Py.float_of_int 100;
  popf ← Py.float_of_int POP_SIZE;
  cover ← Py.float_truediv (PrimFloat.mul hundred avg_U) popf;
  mret {| pairs := Py.len ps;
          total_hits := total_hits;
          total_exp := total_exp;
          total_var := total_var;
          z_score := z;
          avg_hits_per_pair := avg_hits;
          avg_exp_per_pair := avg_exp;
          avg_U_size := avg_U;
          avg_U_cover_pct := cover;
          hist_hits := merge_sort key_le (map_to_list hist) |}.

Definition theoretical_single_seed_size (radius : Z) (wrap : bool)
    : Py.result float :=
  let sizes :=
    (fun s => Z.of_nat (size (neighborhood s radius wrap))) <$> Py.range 1 50 in
  Py.int_truediv (Py.sum_int sizes) (Py.len sizes).

(** ** The pipeline *)

Record Draw : Set := {
  date : string;
  numbers : list Z
}.

(** The summary with the key [theory_single_seed] that [analyze] adds. *)
Record Analysis : Set := {
  summary : SummaryResult;
  theory_single_seed : float
}.

(** The loop [for i in range(1, len(draws))] over consecutive draws. *)
Fixpoint consecutive (draws : list Draw) : list (Draw * Draw) :=
  match draws with
  | prev :: (curr :: _) as rest => (prev, curr) :: consecutive rest
  | _ => []
  end.

Definition analyze (draws : list Draw) (radius : Z)
    (wrap exclude_center : bool) : Py.result Analysis :=
  ps ← mapM (fun pc : Draw * Draw =>
               pair_stats (numbers pc.1) (numbers pc.2) radius wrap
                          exclude_center)
            (consecutive draws);
  res ← summarize ps;
  t ← theoretical_single_seed_size radius wrap;
  mret {| summary := res; theory_single_seed := t |}.

(** What [main] prints, one item per group of [print] calls. *)
Inductive output : Set :=
| OutLoaded (n : Z)
| OutRange (first last : string)
| OutConfig (name : string) (res : Analysis)
| OutExample (mode : string) (prev curr : list Z) (ex : PairResult)
             (cover : float).

Definition configs : list (string * bool * Z * bool) :=
  [ ("no-wrap r<=2 include center", false, 2, false);
    ("no-wrap r<=2 exclude center", false, 2, true);
    ("no-wrap r<=1 include center", false, 1, false);
    ("wrap(3x3) r<=2 include center", true, 2, false);
    ("wrap(3x3) r<=2 exclude center", true, 2, true);
    ("wrap(3x3) r<=1 include center", true, 1, false) ]%string.

(** The loop over [configs]; an exception ends the run with what was
    printed before it. *)
Fixpoint run_configs (draws : list Draw)
    (cfgs : list (string * bool * Z * bool)) (out : list output)
    : list output * Py.result () :=
  match cfgs with
  | [] => (out, Py.Ok ())
  | (name, wrap, r, excl) :: rest =>
      match analyze draws r wrap excl with
      | Py.Raise e => (out, Py.Raise e)
      | Py.Ok res => run_configs draws rest (out ++ [OutConfig name res])
      end
  end.

(** [for wrap in (False, True)] of the example report. *)
Fixpoint example_modes (prev curr : list Z) (modes : list bool)
    (out : list output) : list output * Py.result () :=
  match modes with
  | [] => (out, Py.Ok ())
  | wrap :: rest =>
      match
        ex ← pair_stats prev curr 2 wrap false;
        cover ← Py.int_truediv (100 * U_size ex) POP_SIZE;
        mret (ex, cover)
      with
      | Py.Raise e => (out, Py.Raise e)
      | Py.Ok (ex, cover) =>
          let mode := (if wrap then "wrap" else "no-wrap")%string in
          example_modes prev curr rest
                        (out ++ [OutExample mode prev curr ex cover])
      end
  end.

(** The search for the pair 2025-10-23 -> 2025-10-25, left at the first
    match. *)
Fixpoint example_loop (cs : list (Draw * Draw)) (out : list output)
    : list output * Py.result () :=
  match cs with
  | [] => (out, Py.Ok ())
  | (prev, curr) :: rest =>
      if bool_decide (date prev = "2025-10-23"%string)
         && bool_decide (date curr = "2025-10-25"%string)
      then example_modes (numbers prev) (numbers curr) [false; true] out
      else example_loop rest out
  end.

(** [main], from the list [draws] that [load_draws(path)] returned. *)
Definition main (draws : list Draw) : list output * Py.result () :=
  let out := [OutLoaded (Py.len draws)] in
  if bool_decide (Py.len draws < 2) then (out, Py.Ok ())
  else
    let out :=
      out ++ [OutRange (from_option date ""%string (head draws))
                       (from_option date ""%string (last draws))] in
    match run_configs draws configs out with
    | (out, Py.Ok _) => example_loop (consecutive draws) out
    | stopped => stopped
    end.

(** The loop of [load_draws] over the parsed records (a date and a list of
    numbers each), before the final sort by date. *)
Definition load_draws (data : list (string * list Z)) : list Draw :=
  foldl (fun out row =>
           let date := row.1 in
           let nums := filter (fun n => 1 <= n <= 49) row.2 in
           if bool_decide (date = "YYYY-MM-DD"%string)
              || bool_decide (nums = [])
           then out
           else out ++ [ {| date := date;
                            numbers := merge_sort Z.le
                                         (elements (list_to_set nums
                                                      : gset Z)) |} ])
        [] data.

(** ** The sort by date *)

(** What [datetime.strptime(s, "%Y-%m-%d")] returns: a date at midnight.
    Such datetimes compare by year, then month, then day. *)
Record datetime : Set := {
  year : Z;
  month : Z;
  day : Z
}.

Definition datetime_lt (a b : datetime) : Prop :=
  year a < year b
  \/ (year a = year b
      /\ (month a < month b \/ (month a = month b /\ day a < day b))).

#[global] Instance datetime_lt_dec (a b : datetime) :
  Decision (datetime_lt a b).
Proof. unfold datetime_lt. apply _. Defined.

(** The place of an item in a list sorted by key: behind the items whose
    key is less, before the first item whose key is not. *)
Fixpoint insert_by_key (x : datetime * Draw) (l : list (datetime * Draw))
    : list (datetime * Draw) :=
  match l with
  | [] => [x]
  | y :: l' =>
      if decide (datetime_lt y.1 x.1) then y :: insert_by_key x l'
      else x :: y :: l'
  end.

(** [out.sort(key=lambda r: datetime.strptime(r["date"], "%Y-%m-%d"))].
    The library's parser is the parameter [strptime]: it returns a
    datetime or raises.  [list.sort] first computes the key of every item,
    from left to right, so that the first date that does not parse raises;
    then it sorts by key, stably: items with equal keys keep their
    order. *)
Definition sort_by_date (strptime : string -> Py.result datetime)
    (out : list Draw) : Py.result (list Draw) :=
  keyed ← mapM (fun r => k ← strptime (date r); mret (k, r)) out;
  mret ((foldr insert_by_key [] keyed).*2).

(** What [load_draws] returns: the kept draws, sorted by date. *)
Definition load_draws_sorted (strptime : string -> Py.result datetime)
    (data : list (string * list Z)) : Py.result (list Draw) :=
  sort_by_date strptime (load_draws data).

(** [main] from the parsed records: [draws = load_draws(path)] comes
    first, and an exception of it ends the run before anything is
    printed. *)
Definition main_of_data (strptime : string -> Py.result datetime)
    (data : list (string * list Z)) : list output * Py.result () :=
  match load_draws_sorted strptime data with
  | Py.Ok draws => main draws
  | Py.Raise e => ([], Py.Raise e)
  end.

(** ** Definitions that follow the specification's words *)

(** The clipped neighbourhood as the specification describes it: the
    numbers of 1..49 whose cell lies in rows
    [row-radius, row+radius] ∩ [1,10] and columns
    [col-radius, col+radius] ∩ [1,5] around the seed's cell. *)
Definition spec_clipped_rectangle (seed radius : Z) : gset Z :=
  list_to_set
    (filter (fun m =>
               ((pos seed).1 - radius <= (pos m).1 <= (pos seed).1 + radius
                /\ 1 <= (pos m).1 <= 10)
               /\ ((pos seed).2 - radius <= (pos m).2 <= (pos seed).2 + radius
                   /\ 1 <= (pos m).2 <= 5))
            (Py.range 1 50)).

(** The position mapping as the specification describes it: defined on
    1..49, an [InvalidNumber] failure outside. *)
Definition spec_position (n : Z) : Py.result (Z * Z) :=
  if bool_decide (1 <= n <= 49)
  then Py.Ok ((n - 1) mod 10 + 1, (n - 1) / 10 + 1)
  else Py.Raise Py.InvalidNumber.

(** The neighbourhood computation with the specification's failure on an
    invalid seed. *)
Definition spec_checked_neighborhood (seed radius : Z) (wrap : bool)
    : Py.result (gset Z) :=
  if bool_decide (1 <= seed <= 49)
  then Py.Ok (neighborhood seed radius wrap)
  else Py.Raise Py.InvalidNumber.

(** A report of insufficient data, as the specification asks for it:
    something printed beside the count of loaded draws, the line that every
    run prints first. *)
Definition spec_reports_insufficient_data (out : list output) : Prop :=
  exists item, item ∈ out /\ forall n, item <> OutLoaded n.

(** The hypergeometric moments as the specification writes them, with
    N = 49, as exact rationals. *)
Definition spec_expected_hits (n K : Z) : Q :=
  (inject_Z n * inject_Z K / 49)%Q.

Definition spec_variance_hits (n K : Z) : Q :=
  (inject_Z n * (inject_Z K / 49) * (1 - inject_Z K / 49)
   * ((49 - inject_Z n) / (49 - 1)))%Q.

(** A float is finite and within relative distance 2^-49 of a rational:
    equal to it up to the rounding of a few binary64 operations. *)
Definition float_near (f : float) (q : Q) : bool :=
  match Py.float_value f with
  | Some v => Qle_bool (Qabs (v - q)) (Qabs q * (1 # 2 ^ 49))
  | None => false
  end.

(** A float is [d]/10000 when given to 4 decimal places. *)
Definition to_4_places (f : float) (d : Z) : bool :=
  match Py.float_value f with
  | Some v => Qle_bool (Qabs (v - inject_Z d / 10000)) (1 # 20000)
  | None => false
  end.

(** ** Auxiliary definitions of the proofs *)

(** The float part of [pair_stats], from the draw size and the union
    size. *)
Definition moments (n K : Z) : Py.result (float * float) :=
  p ← Py.int_truediv K POP_SIZE;
  nf ← Py.float_of_int n;
  nf' ← Py.float_of_int n;
  one ← Py.float_of_int 1;
  fpc ← Py.int_truediv (POP_SIZE - n) (POP_SIZE - 1);
  mret (PrimFloat.mul nf p,
        PrimFloat.mul
          (PrimFloat.mul (PrimFloat.mul nf' p) (PrimFloat.sub one p)) fpc).

(** [moments] returns floats that are near the specified rationals. *)
Definition moments_ok (n K : Z) : bool :=
  match moments n K with
  | Py.Ok (e, v) =>
      float_near e (spec_expected_hits n K)
      && float_near v (spec_variance_hits n K)
  | Py.Raise _ => false
  end.

(** The integer fields of a pair result convert to float exactly. *)
Definition counts_in_range (p : PairResult) : Prop :=
  Z.abs (hits p) <= 2 ^ 53 /\ Z.abs (U_size p) <= 2 ^ 53.

(** The facts of C10 for one seed, in a form that is decided by
    computation: a member in each column, column distance at most 2 to
    every number, and the size. *)
Definition wrap2_facts (seed : Z) : Prop :=
  Forall (fun c => Exists (fun m => (pos m).2 = c)
                          (elements (neighborhood seed 2 true)))
         (Py.range 1 6)
  /\ Forall (fun m => Z.min (Z.abs ((pos seed).2 - (pos m).2))
                            (5 - Z.abs ((pos seed).2 - (pos m).2)) <= 2)
            (Py.range 1 50)
  /\ size (neighborhood seed 2 true)
     = (if bool_decide ((pos seed).1 = 1 \/ (pos seed).1 = 2
                        \/ (pos seed).1 = 8 \/ (pos seed).1 = 9
                        \/ (pos seed).1 = 10)
        then 24%nat else 25%nat).

#[local] Instance wrap2_facts_dec (seed : Z) : Decision (wrap2_facts seed).
Proof. unfold wrap2_facts. apply _. Defined.

(** The float moments of a pair are in range, and the variance is positive
    exactly for a proper, non-empty draw and union. *)
Definition moments_sign_ok (n K : Z) : bool :=
  match moments n K with
  | Py.Ok (e, v) =>
      PrimFloat.leb PrimFloat.zero e
      && PrimFloat.leb e (Py.round_int n)
      && PrimFloat.leb e (Py.round_int K)
      && PrimFloat.leb PrimFloat.zero v
      && Bool.eqb (PrimFloat.ltb PrimFloat.zero v)
                  (bool_decide (0 < n < 49 /\ 0 < K < 49))
  | Py.Raise _ => false
  end.

(** What the loop of [load_draws] does with one record: the draw it
    appends, if any. *)
Definition kept_draw (row : string * list Z) : option Draw :=
  let date := row.1 in
  let nums := filter (fun n => 1 <= n <= 49) row.2 in
  if bool_decide (date = "YYYY-MM-DD"%string) || bool_decide (nums = [])
  then None
  else Some {| date := date;
               numbers := merge_sort Z.le
                            (elements (list_to_set nums : gset Z)) |}.

(** The number of cells of the clipped rectangle around a seed, less the
    cell (10, 5) of the number 50 when the rectangle reaches it. *)
Definition clip_cells (seed radius : Z) : Z :=
  let '(r0, c0) := pos seed in
  (Z.min 10 (r0 + radius) - Z.max 1 (r0 - radius) + 1)
  * (Z.min 5 (c0 + radius) - Z.max 1 (c0 - radius) + 1)
  - (if bool_decide (10 <= r0 + radius /\ 5 <= c0 + radius) then 1 else 0).

(** The number of cells within a torus distance of a seed, less the cell
    (10, 5) of the number 50 when it is that near. *)
Definition wrap_cells (seed radius : Z) : Z :=
  Z.min 10 (2 * radius + 1) * Z.min 5 (2 * radius + 1)
  - (if bool_decide (chebyshev_torus (pos seed) (10, 5) <= radius)
     then 1 else 0).

(** ** Membership in the sets the loops build *)

Section FoldInsert.
Context {A : Type} (P : A -> bool) (f : A -> Z).

(** A loop that adds [f x] to a set for the items [x] that pass [P]. *)
Lemma elem_of_foldl_insert (l : list A) (acc : gset Z) (m : Z) :
  m ∈ foldl (fun cells x => if P x then cells ∪ {[ f x ]} else cells) acc l
  <-> m ∈ acc \/ exists x, x ∈ l /\ P x = true /\ f x = m.
Proof.
  revert acc. induction l as [|x l IH]; intros acc; simpl.
  - split; [auto|]. intros [H|(x & Hx & _)]; [done|]. by apply elem_of_nil in Hx.
  - rewrite IH. split.
    + intros [H|(y & Hy & HP & Hf)].
      * destruct (P x) eqn:HPx; [|by left].
        apply elem_of_union in H as [H|H]; [by left|].
        apply elem_of_singleton in H. right. exists x.
        split; [apply list_elem_of_here|done].
      * right. exists y. split; [by apply list_elem_of_further|done].
    + intros [H|(y & Hy & HP & Hf)].
      * left. destruct (P x); set_solver.
      * apply elem_of_cons in Hy as [->|Hy].
        -- left. rewrite HP. set_solver.
        -- right. by exists y.
Qed.
End FoldInsert.

Lemma elem_of_range (a b k : Z) : k ∈ Py.range a b <-> a <= k < b.
Proof. unfold Py.range. rewrite elem_of_seqZ. lia. Qed.

(** Wrap mode: exactly the numbers of 1..49 within torus distance. *)
Lemma elem_of_neighborhood_wrap (seed radius m : Z) :
  m ∈ neighborhood seed radius true
  <-> 1 <= m <= 49 /\ chebyshev_torus (pos seed) (pos m) <= radius.
Proof.
  unfold neighborhood. destruct (pos seed) as [r0 c0] eqn:Hp.
  rewrite (elem_of_foldl_insert
             (fun n => bool_decide (chebyshev_torus (r0, c0) (pos n) <= radius))
             (fun n => n)).
  split.
  - intros [H|(x & Hx & HP & <-)]; [set_solver|].
    apply elem_of_range in Hx. apply bool_decide_eq_true in HP. lia.
  - intros [Hm Hd]. right. exists m. split; [apply elem_of_range; lia|].
    split; [by apply bool_decide_eq_true|done].
Qed.

(** Clipped mode: the cells of the clipped rectangle, mapped by [num] and
    kept when in 1..49. *)
Lemma elem_of_neighborhood_clip (seed radius m : Z) :
  m ∈ neighborhood seed radius false
  <-> exists r c,
        Z.max 1 ((pos seed).1 - radius) <= r <= Z.min ROWS ((pos seed).1 + radius)
        /\ Z.max 1 ((pos seed).2 - radius) <= c <= Z.min COLS ((pos seed).2 + radius)
        /\ num r c = m /\ 1 <= m <= 49.
Proof.
  unfold neighborhood. destruct (pos seed) as [r0 c0] eqn:Hp. cbn [fst snd].
  set (rmin := Z.max 1 (r0 - radius)). set (rmax := Z.min ROWS (r0 + radius)).
  set (cmin := Z.max 1 (c0 - radius)). set (cmax := Z.min COLS (c0 + radius)).
  generalize (Py.range rmin (rmax + 1)) (elem_of_range rmin (rmax + 1)).
  intros rows Hrows.
  assert (Hgen : forall acc : gset Z,
    m ∈ foldl (fun cells r =>
                 foldl (fun cells c =>
                          let n := num r c in
                          if bool_decide (1 <= n <= 49)
                          then cells ∪ {[ n ]} else cells)
                       cells (Py.range cmin (cmax + 1))) acc rows
    <-> m ∈ acc \/ exists r c, r ∈ rows /\ cmin <= c <= cmax
                               /\ num r c = m /\ 1 <= m <= 49).
  { clear Hrows. induction rows as [|r rows IH]; intros acc; simpl.
    - split; [auto|]. intros [H|(r & c & Hr & _)]; [done|].
      by apply elem_of_nil in Hr.
    - rewrite IH.
      rewrite (elem_of_foldl_insert
                 (fun c => bool_decide (1 <= num r c <= 49)) (fun c => num r c)).
      split.
      + intros [[H|(c & Hc & HP & Hf)]|(r' & c & Hr & Hc)].
        * by left.
        * right. exists r, c. apply elem_of_range in Hc.
          apply bool_decide_eq_true in HP.
          split; [apply list_elem_of_here|]. split; [lia|]. split; [done|lia].
        * right. exists r', c. split; [by apply list_elem_of_further|done].
      + intros [H|(r' & c & Hr & Hc & Hf & Hm)].
        * by left; left.
        * apply elem_of_cons in Hr as [->|Hr].
          -- left. right. exists c. split; [apply elem_of_range; lia|].
             split; [apply bool_decide_eq_true; lia|done].
          -- right. exists r', c. done. }
  rewrite Hgen. split.
  - intros [H|(r & c & Hr & Hc & Hf & Hm)]; [set_solver|].
    exists r, c. apply Hrows in Hr. split; [lia|done].
  - intros (r & c & Hr & Hc & Hf & Hm). right. exists r, c.
    split; [apply Hrows; lia|done].
Qed.

Lemma num_pos (n : Z) : num (pos n).1 (pos n).2 = n.
Proof.
  unfold num, pos; cbn [fst snd].
  pose proof (Z.div_mod (n - 1) 10 ltac:(lia)). lia.
Qed.

Lemma pos_num (r c : Z) : 1 <= r <= 10 -> pos (num r c) = (r, c).
Proof.
  intros Hr. unfold pos, num.
  replace ((c - 1) * 10 + r - 1) with ((r - 1) + (c - 1) * 10) by lia.
  rewrite Z.div_add, Z.mod_add by lia.
  rewrite Z.div_small, Z.mod_small by lia. f_equal; lia.
Qed.

Lemma pos_range (n : Z) :
  1 <= n <= 49 -> 1 <= (pos n).1 <= 10 /\ 1 <= (pos n).2 <= 5.
Proof.
  intros Hn. unfold pos; cbn [fst snd].
  pose proof (Z.mod_pos_bound (n - 1) 10 ltac:(lia)).
  assert (0 <= (n - 1) / 10 < 5)
    by (split; [apply Z.div_pos; lia|apply Z.div_lt_upper_bound; lia]).
  lia.
Qed.

(** Clipped mode read through [pos]: the numbers of 1..49 whose cell lies in
    the clipped rectangle. *)
Lemma elem_of_neighborhood_clip_pos (seed radius m : Z) :
  m ∈ neighborhood seed radius false
  <-> 1 <= m <= 49
      /\ Z.max 1 ((pos seed).1 - radius) <= (pos m).1
           <= Z.min ROWS ((pos seed).1 + radius)
      /\ Z.max 1 ((pos seed).2 - radius) <= (pos m).2
           <= Z.min COLS ((pos seed).2 + radius).
Proof.
  rewrite elem_of_neighborhood_clip. split.
  - intros (r & c & Hr & Hc & <- & Hm).
    rewrite pos_num by (unfold ROWS in Hr; lia). cbn [fst snd]. done.
  - intros (Hm & Hr & Hc). exists (pos m).1, (pos m).2.
    split; [done|]. split; [done|]. split; [apply num_pos|done].
Qed.

(** A check that holds on every item of a range holds on each number of it. *)
Lemma forallb_range (P : Z -> bool) (a b : Z) :
  forallb P (Py.range a b) = true -> forall k, a <= k < b -> P k = true.
Proof.
  intros H k Hk. rewrite forallb_forall in H. apply H.
  apply list_elem_of_In, elem_of_range. lia.
Qed.

(** ** The board mapping *)

(** C4: for every n of 1..49, [num(pos(n)) = n], the row is in 1..10 and the
    column in 1..5; and [pos] is injective on 1..49. *)
Theorem pos_num_roundtrip :
  (forall n, 1 <= n <= 49 ->
     num (pos n).1 (pos n).2 = n
     /\ 1 <= (pos n).1 <= 10 /\ 1 <= (pos n).2 <= 5)
  /\ (forall a b, 1 <= a <= 49 -> 1 <= b <= 49 -> pos a = pos b -> a = b).
Proof.
  split.
  - intros n Hn. split; [apply num_pos|by apply pos_range].
  - intros a b _ _ Hab.
    rewrite <- (num_pos a), <- (num_pos b). by rewrite Hab.
Qed.

Lemma pos_num_roundtrip_witness :
  num (pos 37).1 (pos 37).2 = 37
  /\ (pos 49 = pos 49 -> 49 = 49).
Proof.
  split.
  - apply (proj1 pos_num_roundtrip 37). lia.
  - apply (proj2 pos_num_roundtrip 49 49); lia.
Defined.

(** ** Neighbourhoods *)

(** C2: in wrap mode, a number m of 1..49 is in the neighbourhood of a seed
    of 1..49 exactly when the toroidal Chebyshev distance of their cells is
    at most the radius; 50 is never a member. *)
Theorem neighborhood_wrap_torus (seed radius m : Z) :
  1 <= seed <= 49 -> 1 <= m <= 49 ->
  (m ∈ neighborhood seed radius true
   <-> Z.max (Z.min (Z.abs ((pos seed).1 - (pos m).1))
                    (10 - Z.abs ((pos seed).1 - (pos m).1)))
             (Z.min (Z.abs ((pos seed).2 - (pos m).2))
                    (5 - Z.abs ((pos seed).2 - (pos m).2))) <= radius)
  /\ 50 ∉ neighborhood seed radius true.
Proof.
  intros _ Hm. split.
  - rewrite elem_of_neighborhood_wrap. unfold chebyshev_torus, ROWS, COLS.
    tauto.
  - rewrite elem_of_neighborhood_wrap. lia.
Qed.

Lemma neighborhood_wrap_torus_witness :
  (10 ∈ neighborhood 1 1 true
   <-> Z.max (Z.min (Z.abs ((pos 1).1 - (pos 10).1))
                    (10 - Z.abs ((pos 1).1 - (pos 10).1)))
             (Z.min (Z.abs ((pos 1).2 - (pos 10).2))
                    (5 - Z.abs ((pos 1).2 - (pos 10).2))) <= 1)
  /\ 50 ∉ neighborhood 1 1 true.
Proof. apply (neighborhood_wrap_torus 1 1 10); lia. Defined.

Lemma elem_of_spec_clipped_rectangle (seed radius m : Z) :
  m ∈ spec_clipped_rectangle seed radius
  <-> 1 <= m <= 49
      /\ ((pos seed).1 - radius <= (pos m).1 <= (pos seed).1 + radius
          /\ 1 <= (pos m).1 <= 10)
      /\ ((pos seed).2 - radius <= (pos m).2 <= (pos seed).2 + radius
          /\ 1 <= (pos m).2 <= 5).
Proof.
  unfold spec_clipped_rectangle.
  rewrite elem_of_list_to_set, list_elem_of_filter, elem_of_range. lia.
Qed.

(** C3: in clipped mode the neighbourhood of a seed of 1..49 is the set of
    the numbers of 1..49 whose cell lies in the clipped rectangle around the
    seed's cell; the neighbourhood of 1 at radius 1 is {1, 2, 11, 12}. *)
Theorem neighborhood_clip_rectangle :
  (forall seed radius, 1 <= seed <= 49 ->
     neighborhood seed radius false = spec_clipped_rectangle seed radius)
  /\ neighborhood 1 1 false = {[ 1; 2; 11; 12 ]}.
Proof.
  split.
  - intros seed radius _. apply set_eq. intros m.
    rewrite elem_of_neighborhood_clip_pos, elem_of_spec_clipped_rectangle.
    unfold ROWS, COLS. lia.
  - apply set_eq. intros m. rewrite elem_of_neighborhood_clip_pos.
    change (pos 1) with (1, 1). cbn [fst snd]. unfold ROWS, COLS.
    rewrite !elem_of_union, !elem_of_singleton. split.
    + intros (Hm & Hr & Hc). pose proof (num_pos m) as E. unfold num in E. lia.
    + intros [[[->| ->]| ->]| ->]; vm_compute; intuition discriminate.
Qed.

Lemma neighborhood_clip_rectangle_witness :
  neighborhood 25 2 false = spec_clipped_rectangle 25 2.
Proof. apply (proj1 neighborhood_clip_rectangle 25 2). lia. Defined.

(** C7: for valid a and b, b is in the neighbourhood of a exactly when a is
    in the neighbourhood of b, at every radius and in both modes. *)
Theorem neighborhood_symmetric (a b radius : Z) (wrap : bool) :
  1 <= a <= 49 -> 1 <= b <= 49 ->
  (b ∈ neighborhood a radius wrap <-> a ∈ neighborhood b radius wrap).
Proof.
  intros Ha Hb. destruct wrap.
  - rewrite !elem_of_neighborhood_wrap. unfold chebyshev_torus, ROWS, COLS.
    lia.
  - rewrite !elem_of_neighborhood_clip_pos.
    pose proof (pos_range a Ha). pose proof (pos_range b Hb).
    unfold ROWS, COLS. lia.
Qed.

Lemma neighborhood_symmetric_witness :
  12 ∈ neighborhood 1 1 false <-> 1 ∈ neighborhood 12 1 false.
Proof. apply (neighborhood_symmetric 1 12 1 false); lia. Defined.

(** ** The union of neighbourhoods *)

Lemma elem_of_union_fold (seeds : list Z) (radius : Z) (wrap : bool)
    (acc : gset Z) (m : Z) :
  m ∈ foldl (fun U s => U ∪ neighborhood s radius wrap) acc seeds
  <-> m ∈ acc \/ exists s, s ∈ seeds /\ m ∈ neighborhood s radius wrap.
Proof.
  revert acc. induction seeds as [|s seeds IH]; intros acc; simpl.
  - set_solver.
  - rewrite IH. set_solver.
Qed.

Lemma elem_of_union_neighborhood (seeds : list Z) (radius : Z)
    (wrap excl : bool) (m : Z) :
  m ∈ union_neighborhood seeds radius wrap excl
  <-> (exists s, s ∈ seeds /\ m ∈ neighborhood s radius wrap)
      /\ (excl = true -> m ∉ seeds).
Proof.
  unfold union_neighborhood. destruct excl.
  - rewrite elem_of_difference, elem_of_union_fold, elem_of_list_to_set.
    set_solver.
  - rewrite elem_of_union_fold. set_solver.
Qed.

(** C5: with [exclude_center] the union is disjoint from the seeds: every
    seed is removed from the whole union, also one that lies in another
    seed's neighbourhood. *)
Theorem union_excludes_seeds (seeds : list Z) (radius : Z) (wrap : bool) :
  union_neighborhood seeds radius wrap true ∩ list_to_set seeds = ∅
  /\ forall s, s ∈ seeds -> s ∉ union_neighborhood seeds radius wrap true.
Proof.
  split.
  - apply set_eq. intros m.
    rewrite elem_of_intersection, elem_of_union_neighborhood,
      elem_of_list_to_set.
    set_solver.
  - intros s Hs. rewrite elem_of_union_neighborhood. tauto.
Qed.

(** Seed 2 lies in the neighbourhood of seed 1 and is removed all the same. *)
Lemma union_excludes_seeds_witness :
  2 ∈ neighborhood 1 1 false
  /\ 2 ∉ union_neighborhood [1; 2] 1 false true.
Proof.
  split.
  - apply elem_of_neighborhood_clip_pos. vm_compute. intuition discriminate.
  - apply (proj2 (union_excludes_seeds [1; 2] 1 false) 2).
    apply list_elem_of_further, list_elem_of_here.
Defined.

(** ** The toroidal neighbourhood of radius 2 *)

Lemma wrap2_facts_all :
  forallb (fun seed => bool_decide (wrap2_facts seed)) (Py.range 1 50) = true.
Proof. vm_compute. reflexivity. Qed.

(** C10: for every seed of 1..49 the wrap-mode neighbourhood of radius 2
    has a member in each of the 5 columns, the column distance to every
    number of 1..49 being at most 2; its size is 24 when the seed's row is
    1, 2, 8, 9 or 10 and 25 otherwise. *)
Theorem neighborhood_wrap2_size (seed : Z) :
  1 <= seed <= 49 ->
  (forall c, 1 <= c <= 5 ->
     exists m, m ∈ neighborhood seed 2 true /\ (pos m).2 = c)
  /\ (forall m, 1 <= m <= 49 ->
        Z.min (Z.abs ((pos seed).2 - (pos m).2))
              (5 - Z.abs ((pos seed).2 - (pos m).2)) <= 2)
  /\ size (neighborhood seed 2 true)
     = (if bool_decide ((pos seed).1 = 1 \/ (pos seed).1 = 2
                        \/ (pos seed).1 = 8 \/ (pos seed).1 = 9
                        \/ (pos seed).1 = 10)
        then 24%nat else 25%nat).
Proof.
  intros Hs.
  pose proof (forallb_range _ 1 50 wrap2_facts_all seed ltac:(lia)) as H.
  apply bool_decide_eq_true in H. destruct H as (Hcol & Hdist & Hsize).
  split; [|split].
  - intros c Hc. rewrite Forall_forall in Hcol.
    specialize (Hcol c (proj2 (elem_of_range 1 6 c) ltac:(lia))).
    apply Exists_exists in Hcol as (m & Hm & Hmc).
    exists m. split; [apply elem_of_elements; exact Hm|exact Hmc].
  - intros m Hm. rewrite Forall_forall in Hdist.
    exact (Hdist m (proj2 (elem_of_range 1 50 m) ltac:(lia))).
  - exact Hsize.
Qed.

Lemma neighborhood_wrap2_size_witness :
  size (neighborhood 20 2 true)
  = (if bool_decide ((pos 20).1 = 1 \/ (pos 20).1 = 2
                     \/ (pos 20).1 = 8 \/ (pos 20).1 = 9
                     \/ (pos 20).1 = 10)
     then 24%nat else 25%nat).
Proof. apply (neighborhood_wrap2_size 20). lia. Defined.

(** ** Numbers outside 1..49 *)

Lemma neighborhood_valid (seed radius : Z) (wrap : bool) (m : Z) :
  m ∈ neighborhood seed radius wrap -> 1 <= m <= 49.
Proof.
  destruct wrap.
  - rewrite elem_of_neighborhood_wrap. tauto.
  - rewrite elem_of_neighborhood_clip_pos. tauto.
Qed.

(** A draw that the loader keeps holds numbers of 1..49 only. *)
Lemma load_draws_valid (data : list (string * list Z)) (d : Draw) (n : Z) :
  d ∈ load_draws data -> n ∈ numbers d -> 1 <= n <= 49.
Proof.
  unfold load_draws.
  assert (Hgen : forall acc : list Draw,
    (forall d', d' ∈ acc -> forall k, k ∈ numbers d' -> 1 <= k <= 49) ->
    forall d', d' ∈ foldl (fun out row =>
           let date := row.1 in
           let nums := filter (fun n => 1 <= n <= 49) row.2 in
           if bool_decide (date = "YYYY-MM-DD"%string)
              || bool_decide (nums = [])
           then out
           else out ++ [ {| date := date;
                            numbers := merge_sort Z.le
                                         (elements (list_to_set nums
                                                      : gset Z)) |} ])
        acc data ->
    forall k, k ∈ numbers d' -> 1 <= k <= 49).
  { induction data as [|row data IH]; intros acc Hacc d' Hd' k Hk; simpl in Hd'.
    - exact (Hacc d' Hd' k Hk).
    - refine (IH _ _ d' Hd' k Hk). clear d' Hd' k Hk. intros d' Hd' k Hk.
      destruct (bool_decide (row.1 = "YYYY-MM-DD"%string)
                || bool_decide (filter (fun n => 1 <= n <= 49) row.2 = [])).
      + exact (Hacc d' Hd' k Hk).
      + apply elem_of_app in Hd' as [Hd'|Hd'].
        * exact (Hacc d' Hd' k Hk).
        * apply list_elem_of_singleton in Hd'. subst d'. cbn [numbers] in Hk.
          rewrite merge_sort_Permutation in Hk.
          apply elem_of_elements, elem_of_list_to_set in Hk.
          apply list_elem_of_filter in Hk. tauto. }
  intros Hd Hn. refine (Hgen [] _ d Hd n Hn).
  intros d' Hd'. by apply elem_of_nil in Hd'.
Qed.

(** C8 as stated fails: [pos] and [neighborhood] accept 50 and return. *)
Lemma invalid_seed_not_rejected :
  ~ (forall seed, ~ (1 <= seed <= 49) ->
       Py.Ok (pos seed) = spec_position seed
       /\ forall radius wrap,
            Py.Ok (neighborhood seed radius wrap)
            = spec_checked_neighborhood seed radius wrap).
Proof.
  intros H. destruct (H 50 ltac:(lia)) as [Hpos _].
  vm_compute in Hpos. discriminate Hpos.
Qed.

(** C8, amended: [pos] and [neighborhood] do not validate the seed.  For
    every integer, [pos] returns the pair from floor division and modulo
    by 10, and [neighborhood] returns a set of numbers of 1..49; on 1..49
    [pos] agrees with the specified mapping.  The numbers of a loaded draw
    are already in 1..49. *)
Theorem invalid_seed_returns (seed radius : Z) (wrap : bool) :
  pos seed = ((seed - 1) mod 10 + 1, (seed - 1) / 10 + 1)
  /\ (forall m, m ∈ neighborhood seed radius wrap -> 1 <= m <= 49)
  /\ (1 <= seed <= 49 ->
      Py.Ok (pos seed) = spec_position seed
      /\ Py.Ok (neighborhood seed radius wrap)
         = spec_checked_neighborhood seed radius wrap)
  /\ (forall data d n,
        d ∈ load_draws data -> n ∈ numbers d -> 1 <= n <= 49).
Proof.
  split; [reflexivity|]. split; [apply neighborhood_valid|]. split.
  - intros Hs. unfold spec_position, spec_checked_neighborhood.
    rewrite !bool_decide_eq_true_2 by exact Hs. split; reflexivity.
  - exact load_draws_valid.
Qed.

Lemma invalid_seed_returns_witness :
  pos 50 = (10, 5)
  /\ Py.Ok (pos 7) = spec_position 7
  /\ (7 ∈ numbers {| date := "2025-10-23"; numbers := [7] |} -> 1 <= 7 <= 49).
Proof.
  split; [exact (proj1 (invalid_seed_returns 50 1 false))|]. split.
  - apply (proj1 (proj2 (proj2 (invalid_seed_returns 7 1 false)))). lia.
  - apply (proj2 (proj2 (proj2 (invalid_seed_returns 7 1 false)))
             [("2025-10-23"%string, [7; 77])]).
    vm_compute. apply list_elem_of_here.
Defined.

(** ** Fewer than two draws *)

(** With no pair, [summarize] stops at the division by [len(pairs)]. *)
Lemma summarize_nil : summarize [] = Py.Raise Py.ZeroDivisionError.
Proof. vm_compute. reflexivity. Qed.

Lemma consecutive_short (draws : list Draw) :
  Py.len draws < 2 -> consecutive draws = [].
Proof.
  destruct draws as [|d [|d' rest]]; [reflexivity|reflexivity|].
  unfold Py.len. cbn [length]. lia.
Qed.

Lemma analyze_short (draws : list Draw) (radius : Z) (wrap excl : bool) :
  Py.len draws < 2 ->
  analyze draws radius wrap excl = Py.Raise Py.ZeroDivisionError.
Proof.
  intros H. unfold analyze. rewrite (consecutive_short draws H).
  cbn [mapM]. change (mret [] ≫= ?k) with (k ([] : list PairResult)).
  cbv beta. rewrite summarize_nil. reflexivity.
Qed.

(** What was printed before the example report is kept in front of it. *)
Lemma example_modes_out (prev curr : list Z) (modes : list bool)
    (out : list output) :
  example_modes prev curr modes out
  = (out ++ (example_modes prev curr modes []).1,
     (example_modes prev curr modes []).2).
Proof.
  assert (Hgen : forall out1 out2,
    example_modes prev curr modes (out1 ++ out2)
    = (out1 ++ (example_modes prev curr modes out2).1,
       (example_modes prev curr modes out2).2)).
  { induction modes as [|wrap modes IH]; intros out1 out2;
      cbn [example_modes].
    - reflexivity.
    - destruct (ex ← pair_stats prev curr 2 wrap false;
                cover ← Py.int_truediv (100 * U_size ex) POP_SIZE;
                mret (ex, cover)) as [[ex cover]|e].
      + rewrite <- app_assoc. apply IH.
      + reflexivity. }
  rewrite <- (app_nil_r out) at 1. apply Hgen.
Qed.

Lemma example_loop_out (cs : list (Draw * Draw)) (out : list output) :
  example_loop cs out
  = (out ++ (example_loop cs []).1, (example_loop cs []).2).
Proof.
  induction cs as [|[prev curr] cs IH]; cbn [example_loop].
  - rewrite app_nil_r. reflexivity.
  - destruct (bool_decide (date prev = "2025-10-23"%string)
              && bool_decide (date curr = "2025-10-25"%string)).
    + apply example_modes_out.
    + exact IH.
Qed.

(** What was printed before the loop over the configurations is kept in
    front of what it prints, also when it stops at an exception. *)
Lemma run_configs_prefix (draws : list Draw)
    (cfgs : list (string * bool * Z * bool)) (out : list output) :
  exists res r, run_configs draws cfgs out = (out ++ res, r).
Proof.
  revert out. induction cfgs as [|[[[name wrap] r] excl] cfgs IH]; intros out;
    cbn [run_configs].
  - exists [], (Py.Ok ()). rewrite app_nil_r. reflexivity.
  - destruct (analyze draws r wrap excl) as [res|e].
    + destruct (IH (out ++ [OutConfig name res])) as (res' & r' & E).
      rewrite E, <- app_assoc. eexists _, _. reflexivity.
    + exists [], (Py.Raise e). rewrite app_nil_r. reflexivity.
Qed.

(** The count of loaded draws is the first item of every run. *)
Lemma main_count_first (draws : list Draw) :
  exists rest r, main draws = (OutLoaded (Py.len draws) :: rest, r).
Proof.
  unfold main. cbv zeta.
  destruct (bool_decide (Py.len draws < 2)); [eexists _, _; reflexivity|].
  destruct (run_configs_prefix draws configs
              ([OutLoaded (Py.len draws)]
                 ++ [OutRange (from_option date ""%string (head draws))
                              (from_option date ""%string (last draws))]))
    as (res & r & E).
  rewrite E. destruct r as [u|e].
  - rewrite example_loop_out. cbn [app]. eexists _, _. reflexivity.
  - cbn [app]. eexists _, _. reflexivity.
Qed.

(** C9 as stated fails: on fewer than two draws nothing is printed beside
    the count of loaded draws, so that nothing reports insufficient
    data. *)
Lemma main_no_insufficient_data_report :
  ~ (forall draws : list Draw,
       Py.len draws < 2 -> spec_reports_insufficient_data (main draws).1).
Proof.
  intros H. destruct (H [] ltac:(vm_compute; reflexivity))
    as (item & Hin & Hne).
  change (main []).1 with [OutLoaded 0] in Hin.
  apply list_elem_of_singleton in Hin. exact (Hne 0 Hin).
Qed.

(** C9, amended: with fewer than two draws, [main] prints the count of
    loaded draws, the first item of every run, and returns: nothing reports
    insufficient data, no configuration is analysed, no summary is printed
    and no exception is raised.  The guard is what keeps the division by
    the pair count from being reached: [analyze] itself raises on such
    input. *)
Theorem main_insufficient_data (draws : list Draw) :
  Py.len draws < 2 ->
  main draws = ([OutLoaded (Py.len draws)], Py.Ok ())
  /\ ~ spec_reports_insufficient_data (main draws).1
  /\ (forall draws' : list Draw,
        exists rest r,
          main draws' = (OutLoaded (Py.len draws') :: rest, r))
  /\ forall radius wrap excl,
       analyze draws radius wrap excl = Py.Raise Py.ZeroDivisionError.
Proof.
  intros H.
  assert (E : main draws = ([OutLoaded (Py.len draws)], Py.Ok ())).
  { unfold main. rewrite bool_decide_eq_true_2 by exact H. reflexivity. }
  split; [exact E|]. split; [|split].
  - rewrite E. cbn [fst]. intros (item & Hin & Hne).
    apply list_elem_of_singleton in Hin. exact (Hne _ Hin).
  - exact main_count_first.
  - intros radius wrap excl. exact (analyze_short draws radius wrap excl H).
Qed.

Lemma main_insufficient_data_witness :
  main [ {| date := "2025-10-23"; numbers := [3; 14; 15] |} ]
  = ([OutLoaded 1], Py.Ok ()).
Proof.
  apply (main_insufficient_data
           [ {| date := "2025-10-23"; numbers := [3; 14; 15] |} ]).
  vm_compute. reflexivity.
Defined.

(** ** The hypergeometric moments of a pair *)

Lemma pair_stats_moments (prev curr : list Z) (radius : Z)
    (wrap excl : bool) :
  pair_stats prev curr radius wrap excl
  = (ev ← moments (Py.len curr)
                  (Z.of_nat (size (union_neighborhood prev radius wrap excl)));
     mret {| U_size :=
               Z.of_nat (size (union_neighborhood prev radius wrap excl));
             hits :=
               Py.sum_int
                 ((fun _ => 1)
                    <$> filter (fun n =>
                                  n ∈ union_neighborhood prev radius wrap excl)
                               curr);
             exp := ev.1;
             var := ev.2 |}).
Proof.
  unfold pair_stats, moments.
  generalize (union_neighborhood prev radius wrap excl). intros U.
  generalize (Z.of_nat (size U)) (Py.len curr). intros K n.
  unfold mbind, result_bind, Py.bind, mret, result_ret.
  destruct (Py.int_truediv K POP_SIZE); [|reflexivity].
  destruct (Py.float_of_int n); [|reflexivity].
  destruct (Py.float_of_int 1); [|reflexivity].
  destruct (Py.int_truediv (POP_SIZE - n) (POP_SIZE - 1)); reflexivity.
Qed.

Lemma union_neighborhood_valid (seeds : list Z) (radius : Z)
    (wrap excl : bool) (m : Z) :
  m ∈ union_neighborhood seeds radius wrap excl -> 1 <= m <= 49.
Proof.
  rewrite elem_of_union_neighborhood. intros [(s & _ & Hm) _].
  exact (neighborhood_valid s radius wrap m Hm).
Qed.

(** The union has at most 49 members. *)
Lemma union_size_bound (seeds : list Z) (radius : Z) (wrap excl : bool) :
  0 <= Z.of_nat (size (union_neighborhood seeds radius wrap excl)) < 50.
Proof.
  split; [lia|].
  assert (H : union_neighborhood seeds radius wrap excl
              ⊆ list_to_set (Py.range 1 50)).
  { intros m Hm. apply elem_of_list_to_set, elem_of_range.
    pose proof (union_neighborhood_valid _ _ _ _ _ Hm). lia. }
  apply subseteq_size in H.
  rewrite size_list_to_set in H by apply NoDup_seqZ.
  unfold Py.range in H. rewrite length_seqZ in H. lia.
Qed.

Lemma moments_table :
  forallb (fun n => forallb (fun K => moments_ok n K) (Py.range 0 50))
          (Py.range 0 50) = true.
Proof. vm_compute. reflexivity. Qed.

Lemma moments_near (n K : Z) :
  0 <= n < 50 -> 0 <= K < 50 ->
  exists e v, moments n K = Py.Ok (e, v)
    /\ float_near e (spec_expected_hits n K) = true
    /\ float_near v (spec_variance_hits n K) = true.
Proof.
  intros Hn HK.
  pose proof (forallb_range _ 0 50 moments_table n Hn) as H.
  cbv beta in H.
  pose proof (forallb_range _ 0 50 H K HK) as H'. cbv beta in H'.
  unfold moments_ok in H'.
  destruct (moments n K) as [[e v]|]; [|discriminate H'].
  apply andb_prop in H' as [He Hv]. exists e, v. auto.
Qed.

Lemma moments_7_10 :
  exists e v, moments 7 10 = Py.Ok (e, v)
    /\ to_4_places e 14286 = true /\ to_4_places v 9949 = true
    /\ to_4_places v 9820 = false.
Proof.
  eexists _, _. split; [vm_compute; reflexivity|].
  split; [|split]; vm_compute; reflexivity.
Qed.

(** C1 as stated fails in its last figure: for K = 10 and n = 7 the
    variance n*(K/N)*(1-K/N)*((N-n)/(N-1)) is 0.9949 to 4 places, not
    0.9820. *)
Lemma pair_stats_variance_not_09820 :
  ~ (forall prev curr radius wrap excl r,
       Z.of_nat (size (union_neighborhood prev radius wrap excl)) = 10 ->
       Py.len curr = 7 ->
       pair_stats prev curr radius wrap excl = Py.Ok r ->
       to_4_places (exp r) 14286 = true /\ to_4_places (var r) 9820 = true).
Proof.
  intros H.
  assert (E : exists r,
             pair_stats [1; 5] [1; 2; 3; 4; 5; 6; 7] 1 false false = Py.Ok r
             /\ to_4_places (var r) 9820 = false).
  { eexists. split; vm_compute; reflexivity. }
  destruct E as (r & Er & Ev).
  destruct (H [1; 5] [1; 2; 3; 4; 5; 6; 7] 1 false false r) as [_ Hv].
  - vm_compute. reflexivity.
  - vm_compute. reflexivity.
  - exact Er.
  - rewrite Ev in Hv. discriminate Hv.
Qed.

(** C1, amended: for a current draw of at most 49 numbers, with K the size
    of the union and n the number count of the current draw, [pair_stats]
    returns a result whose [U_size] is K, whose [exp] is n*K/N and whose
    [var] is n*(K/N)*(1-K/N)*((N-n)/(N-1)) for N = 49, both up to binary64
    rounding (relative error at most 2^-49); for K = 10 and n = 7 they are
    1.4286 and 0.9949 to 4 decimal places. *)
Theorem pair_stats_hypergeometric (prev curr : list Z) (radius : Z)
    (wrap excl : bool) :
  Py.len curr <= 49 ->
  exists r,
    pair_stats prev curr radius wrap excl = Py.Ok r
    /\ U_size r = Z.of_nat (size (union_neighborhood prev radius wrap excl))
    /\ float_near (exp r) (spec_expected_hits (Py.len curr) (U_size r)) = true
    /\ float_near (var r) (spec_variance_hits (Py.len curr) (U_size r)) = true
    /\ (U_size r = 10 -> Py.len curr = 7 ->
        to_4_places (exp r) 14286 = true /\ to_4_places (var r) 9949 = true).
Proof.
  intros Hn.
  pose proof (union_size_bound prev radius wrap excl) as HK.
  rewrite pair_stats_moments.
  generalize dependent
    (Z.of_nat (size (union_neighborhood prev radius wrap excl))).
  intros K HK.
  assert (Hn' : 0 <= Py.len curr < 50) by (unfold Py.len in *; lia).
  destruct (moments_near (Py.len curr) K Hn' HK) as (e & v & Em & He & Hv).
  rewrite Em. eexists. split; [reflexivity|]. cbn [U_size exp var fst snd].
  split; [reflexivity|]. split; [exact He|]. split; [exact Hv|].
  intros HK10 Hn7. rewrite HK10, Hn7 in Em.
  destruct moments_7_10 as (e' & v' & Em' & He' & Hv' & _).
  rewrite Em in Em'. injection Em' as -> ->. split; assumption.
Qed.

Lemma pair_stats_hypergeometric_witness :
  exists r,
    pair_stats [1; 5] [1; 2; 3; 4; 5; 6; 7] 1 false false = Py.Ok r
    /\ U_size r
       = Z.of_nat (size (union_neighborhood [1; 5] 1 false false))
    /\ float_near (exp r) (spec_expected_hits 7 (U_size r)) = true
    /\ float_near (var r) (spec_variance_hits 7 (U_size r)) = true
    /\ (U_size r = 10 -> 7 = 7 ->
        to_4_places (exp r) 14286 = true /\ to_4_places (var r) 9949 = true).
Proof.
  apply (pair_stats_hypergeometric [1; 5] [1; 2; 3; 4; 5; 6; 7] 1 false false).
  vm_compute. discriminate.
Defined.

(** ** Binary64 facts behind the z-score

    The kernel's floats are specified by [FloatAxioms] through
    [SpecFloat]: rounding a positive value never yields a zero. *)

Lemma digits2_pos_lower (p : positive) :
  2 ^ (Zpos (digits2_pos p) - 1) <= Zpos p.
Proof.
  induction p as [p IH|p IH|]; cbn [digits2_pos].
  - rewrite Pos2Z.inj_succ.
    replace (Z.succ (Zpos (digits2_pos p)) - 1)
      with (Z.succ (Zpos (digits2_pos p) - 1)) by lia.
    rewrite Z.pow_succ_r by lia. lia.
  - rewrite Pos2Z.inj_succ.
    replace (Z.succ (Zpos (digits2_pos p)) - 1)
      with (Z.succ (Zpos (digits2_pos p) - 1)) by lia.
    rewrite Z.pow_succ_r by lia. lia.
  - reflexivity.
Qed.

Lemma shr_1_m (r : shr_record) :
  0 <= shr_m r -> shr_m (shr_1 r) = Z.shiftr (shr_m r) 1.
Proof.
  destruct r as [m rb sb]. cbn [shr_m]. intros Hm.
  rewrite <- Z.div2_spec.
  destruct m as [|[p|p|]|p]; try reflexivity; lia.
Qed.

Lemma iter_shr_1_m (p : positive) (r : shr_record) :
  0 <= shr_m r ->
  shr_m (SpecFloat.iter_pos shr_1 p r) = Z.shiftr (shr_m r) (Zpos p).
Proof.
  revert r. induction p as [p IH|p IH|]; intros r Hr; cbn [SpecFloat.iter_pos].
  - assert (H1 : 0 <= shr_m (shr_1 r))
      by (rewrite shr_1_m by exact Hr; apply Z.shiftr_nonneg; exact Hr).
    assert (H2 : 0 <= shr_m (SpecFloat.iter_pos shr_1 p (shr_1 r)))
      by (rewrite IH by exact H1; apply Z.shiftr_nonneg; exact H1).
    rewrite IH by exact H2. rewrite IH by exact H1. rewrite shr_1_m by exact Hr.
    rewrite !Z.shiftr_shiftr by lia. f_equal. lia.
  - assert (H2 : 0 <= shr_m (SpecFloat.iter_pos shr_1 p r))
      by (rewrite IH by exact Hr; apply Z.shiftr_nonneg; exact Hr).
    rewrite IH by exact H2. rewrite IH by exact Hr.
    rewrite Z.shiftr_shiftr by lia. f_equal. lia.
  - apply shr_1_m. exact Hr.
Qed.

Lemma shr_record_of_loc_m (m : Z) (l : location) :
  shr_m (shr_record_of_loc m l) = m.
Proof. destruct l as [|[]]; reflexivity. Qed.

(** Truncating a positive mantissa to the format leaves it positive. *)
Lemma shr_fexp_pos (m e : Z) (l : location) :
  0 < m -> (SpecFloat.emin prec emax) <= e ->
  0 < shr_m (fst (shr_fexp prec emax m e l))
  /\ (SpecFloat.emin prec emax) <= snd (shr_fexp prec emax m e l).
Proof.
  intros Hm He. unfold shr_fexp, shr.
  destruct m as [|p|p]; try lia. cbn [Zdigits2].
  pose proof (digits2_pos_lower p) as Hd.
  set (d := Zpos (digits2_pos p)) in *.
  assert (Hn : fexp prec emax (d + e) - e <= d - 1).
  { unfold fexp, SpecFloat.emin, prec, emax in *. lia. }
  destruct (fexp prec emax (d + e) - e) as [|n|n] eqn:En; cbn [fst snd].
  - rewrite shr_record_of_loc_m. lia.
  - rewrite iter_shr_1_m by (rewrite shr_record_of_loc_m; lia).
    rewrite shr_record_of_loc_m. split; [|lia].
    rewrite Z.shiftr_div_pow2 by lia.
    apply Z.div_str_pos. split; [apply Z.pow_pos_nonneg; lia|].
    transitivity (2 ^ (d - 1)); [|exact Hd].
    apply Z.pow_le_mono_r; lia.
  - rewrite shr_record_of_loc_m. lia.
Qed.

Lemma round_nearest_even_pos (m : Z) (l : location) :
  0 < m -> 0 < round_nearest_even m l.
Proof.
  intros Hm. destruct l as [|[]]; cbn [round_nearest_even]; try lia.
  destruct (Z.even m); lia.
Qed.

(** Rounding a positive mantissa never gives a zero (nor a NaN). *)
Lemma binary_round_aux_nonzero (sx : bool) (m e : Z) (l : location) :
  0 < m -> (SpecFloat.emin prec emax) <= e ->
  SFeqb (binary_round_aux prec emax sx m e l) (S754_zero false) = false.
Proof.
  intros Hm He. unfold binary_round_aux.
  pose proof (shr_fexp_pos m e l Hm He) as [H1 H1'].
  destruct (shr_fexp prec emax m e l) as [mrs' e'] eqn:E1. cbn [fst snd] in *.
  pose proof (round_nearest_even_pos _ (loc_of_shr_record mrs') H1) as H2.
  pose proof (shr_fexp_pos _ e' loc_Exact H2 H1') as [H3 _].
  destruct (shr_fexp prec emax _ e' loc_Exact) as [mrs'' e''] eqn:E2.
  cbn [fst] in H3.
  destruct (shr_m mrs'') as [|q|q]; try lia.
  destruct (e'' <=? emax - prec); destruct sx; reflexivity.
Qed.

Lemma Prim2SF_zero : Prim2SF PrimFloat.zero = S754_zero false.
Proof. vm_compute. reflexivity. Qed.

(** What a float above zero looks like. *)
Lemma ltb_zero_cases (x : float) :
  PrimFloat.ltb PrimFloat.zero x = true ->
  Prim2SF x = S754_infinity false
  \/ exists m e, Prim2SF x = S754_finite false m e.
Proof.
  rewrite FloatAxioms.ltb_spec, Prim2SF_zero. unfold SFltb.
  destruct (Prim2SF x) as [s|s| |s m e]; cbn [SFcompare].
  - discriminate.
  - destruct s; [discriminate|]. left. reflexivity.
  - discriminate.
  - destruct s; [discriminate|]. right. exists m, e. reflexivity.
Qed.

Lemma ltb_zero_not_neg (x : float) :
  PrimFloat.ltb PrimFloat.zero x = true ->
  PrimFloat.ltb x PrimFloat.zero = false.
Proof.
  intros H. destruct (ltb_zero_cases x H) as [E|(m & e & E)];
    rewrite FloatAxioms.ltb_spec, Prim2SF_zero, E; reflexivity.
Qed.

Lemma valid_binary_emin (s : bool) (m : positive) (e : Z) :
  valid_binary (S754_finite s m e) = true -> (SpecFloat.emin prec emax) <= e.
Proof.
  cbn [SpecFloat.valid_binary]. unfold bounded, canonical_mantissa.
  intros H. apply andb_prop in H as [H _]. apply Z.eqb_eq in H.
  unfold fexp in H. lia.
Qed.

Lemma SFsqrt_nonzero (m : positive) (e : Z) :
  (SpecFloat.emin prec emax) <= e ->
  SFeqb (SFsqrt prec emax (S754_finite false m e)) (S754_zero false) = false.
Proof.
  intros He. cbn [SFsqrt]. unfold SFsqrt_core_binary.
  set (e' := Z.min _ _).
  assert (He' : (SpecFloat.emin prec emax) <= e' /\ 0 <= e - 2 * e').
  { subst e'. rewrite !Z.div2_div. unfold fexp, SpecFloat.emin, prec, emax in *.
    pose proof (Z.div_mod e 2 ltac:(lia)).
    pose proof (Z.mod_pos_bound e 2 ltac:(lia)). lia. }
  set (m' := match e - 2 * e' with Z0 => Zpos m | Zpos _ => _ | Zneg _ => _ end).
  assert (Hm' : 0 < m').
  { subst m'. destruct (e - 2 * e') as [|s|s] eqn:Es; [lia| |lia].
    rewrite Z.shiftl_mul_pow2 by lia.
    apply Z.mul_pos_pos; [lia|apply Z.pow_pos_nonneg; lia]. }
  pose proof (Z.sqrtrem_sqrt m') as Hq.
  destruct (Z.sqrtrem m') as [q r]. cbn [fst] in Hq.
  apply binary_round_aux_nonzero; [|tauto].
  rewrite Hq. apply Z.sqrt_pos. exact Hm'.
Qed.

(** The square root of a float above zero is not zero. *)
Lemma sqrt_pos_nonzero (x : float) :
  PrimFloat.ltb PrimFloat.zero x = true ->
  PrimFloat.is_zero (PrimFloat.sqrt x) = false.
Proof.
  intros H. unfold PrimFloat.is_zero.
  rewrite FloatAxioms.eqb_spec, Prim2SF_zero, FloatAxioms.sqrt_spec. unfold SF64sqrt.
  pose proof (Prim2SF_valid x) as Hv.
  destruct (ltb_zero_cases x H) as [E|(m & e & E)]; rewrite E in *.
  - reflexivity.
  - apply SFsqrt_nonzero. exact (valid_binary_emin _ _ _ Hv).
Qed.

Lemma binary_normalize_nonzero (p : positive) :
  SFeqb (binary_normalize prec emax (Zpos p) 0 false) (S754_zero false)
  = false.
Proof.
  cbn [binary_normalize]. unfold binary_round, shl_align.
  set (ex' := fexp prec emax (Zpos (digits2_pos p) + 0)).
  assert (Hex : (SpecFloat.emin prec emax) <= ex') by (subst ex'; unfold fexp; lia).
  destruct (ex' - 0) as [|d|d];
    apply binary_round_aux_nonzero; try lia.
  unfold SpecFloat.emin, prec, emax. lia.
  unfold SpecFloat.emin, prec, emax. lia.
Qed.

Lemma of_uint63_round (z : Z) :
  0 <= z < 2 ^ 63 ->
  Prim2SF (of_uint63 (Uint63.of_Z z)) = binary_normalize prec emax z 0 false.
Proof.
  intros Hz. rewrite of_uint63_spec, Uint63.of_Z_spec.
  rewrite Z.mod_small; [reflexivity|]. exact Hz.
Qed.

(** ** The operations of [summarize] that can raise *)

Lemma bind_Ok {A B} (a : A) (k : A -> Py.result B) :
  (Py.Ok a ≫= k) = k a.
Proof. reflexivity. Qed.

Lemma float_limit_lower : 2 ^ 116 <= Py.float_limit.
Proof. vm_compute. discriminate. Qed.

Lemma float_of_int_Ok (z : Z) :
  Z.abs z < 2 ^ 116 -> Py.float_of_int z = Py.Ok (Py.round_int z).
Proof.
  intros Hz. unfold Py.float_of_int. pose proof float_limit_lower.
  destruct (Z.ltb_spec (Z.abs z) Py.float_limit); [reflexivity|lia].
Qed.

Lemma int_truediv_Ok (a b : Z) :
  b <> 0 -> Z.abs a <= 2 ^ 53 * Z.abs b ->
  Py.int_truediv a b
  = Py.Ok (SF2Prim (SFdiv prec emax (Py.int_as_spec a) (Py.int_as_spec b))).
Proof.
  intros Hb Ha. unfold Py.int_truediv. pose proof float_limit_lower.
  destruct (Z.eqb_spec b 0); [contradiction|].
  destruct (Z.ltb_spec (Z.abs a) (Py.float_limit * Z.abs b)); [reflexivity|].
  assert (2 ^ 53 * Z.abs b < Py.float_limit * Z.abs b); [|lia].
  apply Z.mul_lt_mono_pos_r; lia.
Qed.

Lemma float_truediv_Ok (x y : float) :
  PrimFloat.is_zero y = false ->
  Py.float_truediv x y = Py.Ok (PrimFloat.div x y).
Proof. intros Hy. unfold Py.float_truediv. rewrite Hy. reflexivity. Qed.

Lemma math_sqrt_Ok (x : float) :
  PrimFloat.ltb PrimFloat.zero x = true ->
  Py.math_sqrt x = Py.Ok (PrimFloat.sqrt x).
Proof.
  intros Hx. unfold Py.math_sqrt. rewrite (ltb_zero_not_neg x Hx).
  reflexivity.
Qed.

(** [float(z)] of a positive list length is not zero. *)
Lemma round_int_nonzero (z : Z) :
  1 <= z < 2 ^ 63 -> PrimFloat.is_zero (Py.round_int z) = false.
Proof.
  intros Hz. unfold PrimFloat.is_zero, Py.round_int.
  rewrite <- (of_uint63_round z) by lia. rewrite SF2Prim_Prim2SF.
  rewrite FloatAxioms.eqb_spec, Prim2SF_zero, of_uint63_round by lia.
  destruct z as [|p|p]; try lia. apply binary_normalize_nonzero.
Qed.

Lemma sum_int_bound (B : Z) (l : list Z) :
  0 <= B -> Forall (fun x => Z.abs x <= B) l ->
  Z.abs (Py.sum_int l) <= B * Py.len l.
Proof.
  intros HB Hl. unfold Py.sum_int, Py.len.
  assert (Hgen : forall a, Z.abs (foldl Z.add a l)
                           <= Z.abs a + B * Z.of_nat (length l)).
  { induction Hl as [|x l Hx Hl IH]; intros a; cbn [foldl length].
    - lia.
    - specialize (IH (a + x)). lia. }
  specialize (Hgen 0). lia.
Qed.

Lemma len_pos {A} (l : list A) : l <> [] -> 1 <= Py.len l.
Proof. destruct l; [contradiction|]. unfold Py.len. cbn [length]. lia. Qed.

(** ** The z-score *)

(** C6 as stated fails on the empty sequence: nothing is returned. *)
Lemma summarize_empty_no_result :
  ~ (forall ps : list PairResult,
       exists S, summarize ps = Py.Ok S
         /\ (PrimFloat.ltb PrimFloat.zero (total_var S) = false ->
             PrimFloat.is_nan (z_score S) = true)).
Proof.
  intros H. destruct (H []) as (S & HS & _).
  rewrite summarize_nil in HS. discriminate HS.
Qed.

(** C6, amended: for every non-empty sequence of pair results (of a length
    a list can have, with integer fields in the exact float range),
    [summarize] returns a summary whose totals are the sums of the fields
    and whose [z_score] is (total_hits - total_exp) / sqrt(total_var) when
    total_var > 0, and otherwise not-a-number: neither zero nor infinite. *)
Theorem summarize_z_score (ps : list PairResult) :
  ps <> [] -> Py.len ps < 2 ^ 63 -> Forall counts_in_range ps ->
  exists S,
    summarize ps = Py.Ok S
    /\ total_hits S = Py.sum_int (hits <$> ps)
    /\ total_exp S = Py.sum_float (exp <$> ps)
    /\ total_var S = Py.sum_float (var <$> ps)
    /\ (PrimFloat.ltb PrimFloat.zero (total_var S) = true ->
        z_score S
        = PrimFloat.div
            (PrimFloat.sub (Py.round_int (total_hits S)) (total_exp S))
            (PrimFloat.sqrt (total_var S)))
    /\ (PrimFloat.ltb PrimFloat.zero (total_var S) = false ->
        PrimFloat.is_nan (z_score S) = true
        /\ PrimFloat.is_zero (z_score S) = false
        /\ PrimFloat.is_infinity (z_score S) = false).
Proof.
  intros Hne Hlen Hrange.
  pose proof (len_pos ps Hne) as Hpos.
  assert (Hh : Z.abs (Py.sum_int (hits <$> ps)) <= 2 ^ 53 * Py.len ps).
  { replace (Py.len ps) with (Py.len (hits <$> ps))
      by (unfold Py.len; rewrite length_fmap; reflexivity).
    apply sum_int_bound; [lia|]. apply Forall_fmap.
    eapply Forall_impl; [exact Hrange|]. intros p [Hp _]. exact Hp. }
  assert (Hu : Z.abs (Py.sum_int (U_size <$> ps)) <= 2 ^ 53 * Py.len ps).
  { replace (Py.len ps) with (Py.len (U_size <$> ps))
      by (unfold Py.len; rewrite length_fmap; reflexivity).
    apply sum_int_bound; [lia|]. apply Forall_fmap.
    eapply Forall_impl; [exact Hrange|]. intros p [_ Hp]. exact Hp. }
  assert (Hz : exists z,
    (if PrimFloat.ltb PrimFloat.zero (Py.sum_float (var <$> ps))
     then hf ← Py.float_of_int (Py.sum_int (hits <$> ps));
          sd ← Py.math_sqrt (Py.sum_float (var <$> ps));
          Py.float_truediv (PrimFloat.sub hf (Py.sum_float (exp <$> ps))) sd
     else mret PrimFloat.nan) = Py.Ok z
    /\ (PrimFloat.ltb PrimFloat.zero (Py.sum_float (var <$> ps)) = true ->
        z = PrimFloat.div
              (PrimFloat.sub (Py.round_int (Py.sum_int (hits <$> ps)))
                             (Py.sum_float (exp <$> ps)))
              (PrimFloat.sqrt (Py.sum_float (var <$> ps))))
    /\ (PrimFloat.ltb PrimFloat.zero (Py.sum_float (var <$> ps)) = false ->
        z = PrimFloat.nan)).
  { destruct (PrimFloat.ltb PrimFloat.zero (Py.sum_float (var <$> ps)))
      eqn:Hv.
    - rewrite float_of_int_Ok by lia. rewrite bind_Ok.
      rewrite (math_sqrt_Ok _ Hv), bind_Ok.
      rewrite (float_truediv_Ok _ _ (sqrt_pos_nonzero _ Hv)).
      eexists. split; [reflexivity|]. split; [reflexivity|discriminate].
    - eexists. split; [reflexivity|]. split; [discriminate|reflexivity]. }
  destruct Hz as (z & Ez & Hz1 & Hz2).
  unfold summarize. cbv zeta. rewrite Ez, bind_Ok.
  rewrite (int_truediv_Ok (Py.sum_int (U_size <$> ps)) (Py.len ps))
    by lia. rewrite bind_Ok.
  rewrite (int_truediv_Ok (Py.sum_int (hits <$> ps)) (Py.len ps))
    by lia. rewrite bind_Ok.
  rewrite (float_of_int_Ok (Py.len ps)) by lia. rewrite bind_Ok.
  rewrite float_truediv_Ok by (apply round_int_nonzero; lia).
  rewrite bind_Ok.
  rewrite (float_of_int_Ok 100) by (vm_compute; reflexivity).
  rewrite bind_Ok.
  rewrite (float_of_int_Ok POP_SIZE) by (vm_compute; reflexivity).
  rewrite bind_Ok.
  rewrite float_truediv_Ok by (vm_compute; reflexivity). rewrite bind_Ok.
  eexists. split; [reflexivity|].
  cbn [total_hits total_exp total_var z_score].
  split; [reflexivity|]. split; [reflexivity|]. split; [reflexivity|].
  split; [exact Hz1|].
  intros Hv. rewrite (Hz2 Hv). vm_compute. auto.
Qed.

Lemma summarize_z_score_witness :
  exists S,
    summarize [ {| U_size := 10; hits := 1; exp := 1; var := 0.5 |};
                {| U_size := 12; hits := 2; exp := 1; var := 0.5 |};
                {| U_size := 9; hits := 1; exp := 1; var := 0.5 |} ]
    = Py.Ok S
    /\ total_hits S = 4
    /\ to_4_places (z_score S) 8165 = true.
Proof.
  destruct (summarize_z_score
              [ {| U_size := 10; hits := 1; exp := 1; var := 0.5 |};
                {| U_size := 12; hits := 2; exp := 1; var := 0.5 |};
                {| U_size := 9; hits := 1; exp := 1; var := 0.5 |} ])
    as (S & HS & Hh & He & Hv & Hz & _).
  - discriminate.
  - vm_compute. reflexivity.
  - repeat constructor; vm_compute; discriminate.
  - exists S. split; [exact HS|]. split; [rewrite Hh; reflexivity|].
    rewrite Hz by (rewrite Hv; vm_compute; reflexivity).
    rewrite Hh, He, Hv. vm_compute. reflexivity.
Defined.

(** ** Further properties of the geometry *)

Lemma pos_row_range (n : Z) : 1 <= (pos n).1 <= 10.
Proof.
  unfold pos; cbn [fst].
  pose proof (Z.mod_pos_bound (n - 1) 10 ltac:(lia)). lia.
Qed.

(** X1: a neighbourhood grows with the radius, for every seed and in both
    modes. *)
Theorem neighborhood_radius_mono (seed r1 r2 : Z) (wrap : bool) :
  r1 <= r2 -> neighborhood seed r1 wrap ⊆ neighborhood seed r2 wrap.
Proof.
  intros Hr m. destruct wrap.
  - rewrite !elem_of_neighborhood_wrap. lia.
  - rewrite !elem_of_neighborhood_clip_pos. lia.
Qed.

Lemma neighborhood_radius_mono_witness :
  neighborhood 25 1 true ⊆ neighborhood 25 2 true.
Proof. apply (neighborhood_radius_mono 25 1 2 true). lia. Defined.

(** A valid seed is a member of its own neighbourhood. *)
Lemma seed_in_neighborhood (seed radius : Z) (wrap : bool) :
  1 <= seed <= 49 -> 0 <= radius -> seed ∈ neighborhood seed radius wrap.
Proof.
  intros Hs Hr. pose proof (pos_range seed Hs). destruct wrap.
  - rewrite elem_of_neighborhood_wrap. unfold chebyshev_torus, ROWS, COLS.
    lia.
  - rewrite elem_of_neighborhood_clip_pos. unfold ROWS, COLS. lia.
Qed.

(** X2: a valid seed belongs to its own neighbourhood at every radius from
    0 on, in both modes. *)
Theorem neighborhood_self (seed radius : Z) (wrap : bool) :
  1 <= seed <= 49 -> 0 <= radius -> seed ∈ neighborhood seed radius wrap.
Proof. apply seed_in_neighborhood. Qed.

Lemma neighborhood_self_witness : 49 ∈ neighborhood 49 0 false.
Proof. apply (neighborhood_self 49 0 false); lia. Defined.

(** X3: with a negative radius the neighbourhood is empty, for every seed
    and in both modes. *)
Theorem neighborhood_negative_radius (seed radius : Z) (wrap : bool) :
  radius < 0 -> neighborhood seed radius wrap = ∅.
Proof.
  intros Hr. apply set_eq. intros m. rewrite elem_of_empty.
  split; [|tauto]. destruct wrap.
  - rewrite elem_of_neighborhood_wrap. unfold chebyshev_torus, ROWS, COLS.
    pose proof (pos_row_range seed). pose proof (pos_row_range m). lia.
  - rewrite elem_of_neighborhood_clip_pos. lia.
Qed.

Lemma neighborhood_negative_radius_witness : neighborhood 25 (-1) true = ∅.
Proof. apply (neighborhood_negative_radius 25 (-1) true). lia. Defined.

(** X4: the clipped neighbourhood is contained in the toroidal one of the
    same seed and radius: wrapping only adds neighbours. *)
Theorem neighborhood_clip_subseteq_wrap (seed radius : Z) :
  neighborhood seed radius false ⊆ neighborhood seed radius true.
Proof.
  intros m. rewrite elem_of_neighborhood_clip_pos, elem_of_neighborhood_wrap.
  unfold chebyshev_torus, ROWS, COLS. lia.
Qed.

(** X5: the neighbourhood of a valid seed is the whole board, all of
    1..49, from radius 9 on in clipped mode and from radius 5 on in wrap
    mode. *)
Theorem neighborhood_saturates (seed radius : Z) (wrap : bool) :
  1 <= seed <= 49 -> (if wrap then 5 else 9) <= radius ->
  forall m, m ∈ neighborhood seed radius wrap <-> 1 <= m <= 49.
Proof.
  intros Hs Hr m. split; [apply neighborhood_valid|]. intros Hm.
  pose proof (pos_range seed Hs). pose proof (pos_range m Hm).
  destruct wrap.
  - rewrite elem_of_neighborhood_wrap. unfold chebyshev_torus, ROWS, COLS.
    lia.
  - rewrite elem_of_neighborhood_clip_pos. unfold ROWS, COLS. lia.
Qed.

Lemma neighborhood_saturates_witness : 49 ∈ neighborhood 1 9 false.
Proof. apply (neighborhood_saturates 1 9 false); lia. Defined.

(** The distance along one axis of a torus of size [n], for a difference
    [d] of two coordinates of 1..n. *)
Lemma torus_axis_spec (n d : Z) :
  - n <= d <= n ->
  0 <= Z.min (Z.abs d) (n - Z.abs d)
  /\ 2 * Z.min (Z.abs d) (n - Z.abs d) <= n
  /\ (Z.min (Z.abs d) (n - Z.abs d) = d
      \/ Z.min (Z.abs d) (n - Z.abs d) = - d
      \/ Z.min (Z.abs d) (n - Z.abs d) = n - d
      \/ Z.min (Z.abs d) (n - Z.abs d) = n + d)
  /\ Z.min (Z.abs d) (n - Z.abs d) <= d + n
  /\ Z.min (Z.abs d) (n - Z.abs d) <= n - d
  /\ (0 <= d -> Z.min (Z.abs d) (n - Z.abs d) <= d)
  /\ (d <= 0 -> Z.min (Z.abs d) (n - Z.abs d) <= - d).
Proof. lia. Qed.

Lemma torus_axis_triangle (n x y z : Z) :
  1 <= x <= n -> 1 <= y <= n -> 1 <= z <= n ->
  Z.min (Z.abs (x - z)) (n - Z.abs (x - z))
  <= Z.min (Z.abs (x - y)) (n - Z.abs (x - y))
     + Z.min (Z.abs (y - z)) (n - Z.abs (y - z)).
Proof.
  intros Hx Hy Hz.
  pose proof (torus_axis_spec n (x - z) ltac:(lia))
    as (_ & _ & _ & A1 & A2 & A3 & A4).
  pose proof (torus_axis_spec n (x - y) ltac:(lia)) as (B0 & B1 & B & _).
  pose proof (torus_axis_spec n (y - z) ltac:(lia)) as (C0 & C1 & C & _).
  generalize dependent (Z.min (Z.abs (x - z)) (n - Z.abs (x - z))).
  generalize dependent (Z.min (Z.abs (x - y)) (n - Z.abs (x - y))).
  generalize dependent (Z.min (Z.abs (y - z)) (n - Z.abs (y - z))).
  intros. lia.
Qed.

Lemma torus_axis_zero (n x y : Z) :
  1 <= x <= n -> 1 <= y <= n ->
  0 <= Z.min (Z.abs (x - y)) (n - Z.abs (x - y))
  /\ 2 * Z.min (Z.abs (x - y)) (n - Z.abs (x - y)) <= n
  /\ (Z.min (Z.abs (x - y)) (n - Z.abs (x - y)) = 0 <-> x = y).
Proof.
  intros Hx Hy.
  pose proof (torus_axis_spec n (x - y) ltac:(lia)) as (A0 & A1 & A & _).
  split; [exact A0|]. split; [exact A1|]. split.
  - generalize dependent (Z.min (Z.abs (x - y)) (n - Z.abs (x - y))).
    intros. lia.
  - intros ->. replace (y - y) with 0 by lia. cbn [Z.abs]. lia.
Qed.

(** X6: on the cells of valid numbers [chebyshev_torus] is a metric with
    values in 0..5: symmetric, zero exactly between a number and itself,
    and satisfying the triangle inequality. *)
Theorem chebyshev_torus_metric (a b c : Z) :
  1 <= a <= 49 -> 1 <= b <= 49 -> 1 <= c <= 49 ->
  chebyshev_torus (pos a) (pos b) = chebyshev_torus (pos b) (pos a)
  /\ 0 <= chebyshev_torus (pos a) (pos b) <= 5
  /\ (chebyshev_torus (pos a) (pos b) = 0 <-> a = b)
  /\ chebyshev_torus (pos a) (pos c)
     <= chebyshev_torus (pos a) (pos b) + chebyshev_torus (pos b) (pos c).
Proof.
  intros Ha Hb Hc.
  pose proof (pos_range a Ha) as [Ra Ca].
  pose proof (pos_range b Hb) as [Rb Cb].
  pose proof (pos_range c Hc) as [Rc Cc].
  pose proof (num_pos a) as Na. pose proof (num_pos b) as Nb.
  unfold num in Na, Nb. unfold chebyshev_torus, ROWS, COLS.
  destruct (pos a) as [ra ca], (pos b) as [rb cb], (pos c) as [rc cc].
  cbn [fst snd] in *.
  replace (Z.abs (rb - ra)) with (Z.abs (ra - rb)) by lia.
  replace (Z.abs (cb - ca)) with (Z.abs (ca - cb)) by lia.
  pose proof (torus_axis_triangle 10 ra rb rc Ra Rb Rc) as Tr.
  pose proof (torus_axis_triangle 5 ca cb cc Ca Cb Cc) as Tc.
  pose proof (torus_axis_zero 10 ra rb Ra Rb) as (Zr1 & Zr2 & Zr3).
  pose proof (torus_axis_zero 5 ca cb Ca Cb) as (Zc1 & Zc2 & Zc3).
  set (drab := Z.min (Z.abs (ra - rb)) (10 - Z.abs (ra - rb))) in *.
  set (dcab := Z.min (Z.abs (ca - cb)) (5 - Z.abs (ca - cb))) in *.
  set (drac := Z.min (Z.abs (ra - rc)) (10 - Z.abs (ra - rc))) in *.
  set (dcac := Z.min (Z.abs (ca - cc)) (5 - Z.abs (ca - cc))) in *.
  set (drbc := Z.min (Z.abs (rb - rc)) (10 - Z.abs (rb - rc))) in *.
  set (dcbc := Z.min (Z.abs (cb - cc)) (5 - Z.abs (cb - cc))) in *.
  clearbody drab dcab drac dcac drbc dcbc.
  split; [reflexivity|]. split; [lia|]. split; [|lia].
  split.
  - intros H0. assert (ra = rb /\ ca = cb) as [-> ->] by lia. lia.
  - intros ->. lia.
Qed.

Lemma chebyshev_torus_metric_witness :
  chebyshev_torus (pos 1) (pos 49) <= chebyshev_torus (pos 1) (pos 10)
                                      + chebyshev_torus (pos 10) (pos 49).
Proof. apply (chebyshev_torus_metric 1 10 49); lia. Defined.

(** X7: on the 10x5 grid [pos] undoes [num]; [num] gives a number of
    1..50, and 50 only for the cell (10, 5). *)
Theorem num_on_grid (r c : Z) :
  1 <= r <= 10 -> 1 <= c <= 5 ->
  pos (num r c) = (r, c)
  /\ 1 <= num r c <= 50
  /\ (num r c = 50 <-> r = 10 /\ c = 5).
Proof.
  intros Hr Hc. split; [apply pos_num; exact Hr|]. unfold num. lia.
Qed.

Lemma num_on_grid_witness : pos (num 10 5) = (10, 5) /\ num 10 5 = 50.
Proof.
  destruct (num_on_grid 10 5) as (H1 & _ & H3); [lia|lia|].
  split; [exact H1|]. apply H3. lia.
Defined.

(** ** The size of a neighbourhood *)

Lemma clip_size_table :
  forallb (fun seed =>
             forallb (fun radius =>
                        bool_decide
                          (Z.of_nat (size (neighborhood seed radius false))
                           = clip_cells seed radius))
                     (Py.range 0 10))
          (Py.range 1 50) = true.
Proof. vm_compute. reflexivity. Qed.

Lemma neighborhood_clip_from_9 (seed radius : Z) :
  1 <= seed <= 49 -> 9 <= radius ->
  neighborhood seed radius false = neighborhood seed 9 false
  /\ clip_cells seed radius = clip_cells seed 9.
Proof.
  intros Hs Hr. pose proof (pos_range seed Hs) as [Hr0 Hc0]. split.
  - apply set_eq. intros m. rewrite !elem_of_neighborhood_clip_pos.
    unfold ROWS, COLS. lia.
  - unfold clip_cells. destruct (pos seed) as [r0 c0]. cbn [fst snd] in *.
    replace (Z.min 10 (r0 + radius)) with 10 by lia.
    replace (Z.min 10 (r0 + 9)) with 10 by lia.
    replace (Z.max 1 (r0 - radius)) with 1 by lia.
    replace (Z.max 1 (r0 - 9)) with 1 by lia.
    replace (Z.min 5 (c0 + radius)) with 5 by lia.
    replace (Z.min 5 (c0 + 9)) with 5 by lia.
    replace (Z.max 1 (c0 - radius)) with 1 by lia.
    replace (Z.max 1 (c0 - 9)) with 1 by lia.
    rewrite !bool_decide_eq_true_2 by lia. reflexivity.
Qed.

(** X8: the size of a clipped neighbourhood, for a valid seed and a
    radius from 0 on: the number of cells of the clipped rectangle, less
    one when the rectangle reaches the cell (10, 5), whose number 50 is
    left out. *)
Theorem neighborhood_clip_size (seed radius : Z) :
  1 <= seed <= 49 -> 0 <= radius ->
  Z.of_nat (size (neighborhood seed radius false))
  = (Z.min 10 ((pos seed).1 + radius) - Z.max 1 ((pos seed).1 - radius) + 1)
    * (Z.min 5 ((pos seed).2 + radius) - Z.max 1 ((pos seed).2 - radius) + 1)
    - (if bool_decide (10 <= (pos seed).1 + radius
                       /\ 5 <= (pos seed).2 + radius)
       then 1 else 0).
Proof.
  intros Hs Hr.
  assert (Ht : forall r, 0 <= r < 10 ->
            Z.of_nat (size (neighborhood seed r false)) = clip_cells seed r).
  { intros r Hr'.
    pose proof (forallb_range _ 1 50 clip_size_table seed ltac:(lia)) as H.
    cbv beta in H.
    pose proof (forallb_range _ 0 10 H r Hr') as H'. cbv beta in H'.
    apply bool_decide_eq_true in H'. exact H'. }
  assert (E : Z.of_nat (size (neighborhood seed radius false))
              = clip_cells seed radius).
  { destruct (Z.lt_ge_cases radius 9) as [Hlt|Hge].
    - apply Ht. lia.
    - destruct (neighborhood_clip_from_9 seed radius Hs Hge) as [-> ->].
      apply Ht. lia. }
  rewrite E. unfold clip_cells. destruct (pos seed) as [r0 c0]. reflexivity.
Qed.

Lemma neighborhood_clip_size_witness :
  Z.of_nat (size (neighborhood 49 1 false)) = 5.
Proof.
  rewrite (neighborhood_clip_size 49 1) by lia. vm_compute. reflexivity.
Defined.

Lemma wrap_size_table :
  forallb (fun seed =>
             forallb (fun radius =>
                        bool_decide
                          (Z.of_nat (size (neighborhood seed radius true))
                           = wrap_cells seed radius))
                     (Py.range 0 6))
          (Py.range 1 50) = true.
Proof. vm_compute. reflexivity. Qed.

Lemma neighborhood_wrap_from_5 (seed radius : Z) :
  1 <= seed <= 49 -> 5 <= radius ->
  neighborhood seed radius true = neighborhood seed 5 true
  /\ wrap_cells seed radius = wrap_cells seed 5.
Proof.
  intros Hs Hr. pose proof (pos_range seed Hs) as [Hr0 Hc0]. split.
  - apply set_eq. intros m. rewrite !elem_of_neighborhood_wrap.
    split; intros [Hm Hd]; (split; [exact Hm|]);
      pose proof (pos_range m Hm) as [Hr1 Hc1]; revert Hd;
      unfold chebyshev_torus, ROWS, COLS; lia.
  - unfold wrap_cells.
    replace (Z.min 10 (2 * radius + 1)) with 10 by lia.
    replace (Z.min 5 (2 * radius + 1)) with 5 by lia.
    assert (Hd : chebyshev_torus (pos seed) (10, 5) <= 5).
    { unfold chebyshev_torus, ROWS, COLS. cbn [fst snd]. lia. }
    rewrite !bool_decide_eq_true_2 by lia. reflexivity.
Qed.

(** X9: the size of a toroidal neighbourhood, for a valid seed and a
    radius from 0 on: min(10, 2r+1) rows times min(5, 2r+1) columns, less
    one when the cell (10, 5), whose number 50 is left out, is within the
    radius of the seed. *)
Theorem neighborhood_wrap_size (seed radius : Z) :
  1 <= seed <= 49 -> 0 <= radius ->
  Z.of_nat (size (neighborhood seed radius true))
  = Z.min 10 (2 * radius + 1) * Z.min 5 (2 * radius + 1)
    - (if bool_decide (chebyshev_torus (pos seed) (10, 5) <= radius)
       then 1 else 0).
Proof.
  intros Hs Hr.
  assert (Ht : forall r, 0 <= r < 6 ->
            Z.of_nat (size (neighborhood seed r true)) = wrap_cells seed r).
  { intros r Hr'.
    pose proof (forallb_range _ 1 50 wrap_size_table seed ltac:(lia)) as H.
    cbv beta in H.
    pose proof (forallb_range _ 0 6 H r Hr') as H'. cbv beta in H'.
    apply bool_decide_eq_true in H'. exact H'. }
  destruct (Z.lt_ge_cases radius 5) as [Hlt|Hge].
  - apply Ht. lia.
  - destruct (neighborhood_wrap_from_5 seed radius Hs Hge) as [E1 E2].
    rewrite E1. change (Z.of_nat (size (neighborhood seed 5 true))
                        = wrap_cells seed radius).
    rewrite E2. apply Ht. lia.
Qed.

Lemma neighborhood_wrap_size_witness :
  Z.of_nat (size (neighborhood 49 1 true)) = 8.
Proof.
  rewrite (neighborhood_wrap_size 49 1) by lia. vm_compute. reflexivity.
Defined.

(** ** Further properties of the union *)

(** X10: the union depends only on which numbers are seeds: two seed lists
    with the same members, in any order and with any repetitions, give the
    same union, with and without exclusion. *)
Theorem union_neighborhood_seed_set (s1 s2 : list Z) (radius : Z)
    (wrap excl : bool) :
  (forall x, x ∈ s1 <-> x ∈ s2) ->
  union_neighborhood s1 radius wrap excl
  = union_neighborhood s2 radius wrap excl.
Proof.
  intros H. apply set_eq. intros m. rewrite !elem_of_union_neighborhood.
  split; intros [(s & Hs & Hm) He].
  - split; [exists s; split; [apply H; exact Hs|exact Hm]|].
    intros E Hin. apply (He E). apply H. exact Hin.
  - split; [exists s; split; [apply H; exact Hs|exact Hm]|].
    intros E Hin. apply (He E). apply H. exact Hin.
Qed.

Lemma union_neighborhood_seed_set_witness :
  union_neighborhood [3; 7; 3] 1 true false
  = union_neighborhood [7; 3] 1 true false.
Proof.
  apply (union_neighborhood_seed_set [3; 7; 3] [7; 3] 1 true false).
  intros x. rewrite !elem_of_cons, !elem_of_nil. tauto.
Defined.

Lemma union_seeds_split (seeds : list Z) (radius : Z) (wrap : bool) :
  0 <= radius -> Forall (fun s => 1 <= s <= 49) seeds ->
  union_neighborhood seeds radius wrap false
  = union_neighborhood seeds radius wrap true ∪ list_to_set seeds.
Proof.
  intros Hr Hv. apply set_eq. intros m.
  rewrite elem_of_union, !elem_of_union_neighborhood, elem_of_list_to_set.
  split.
  - intros [Hex _]. destruct (decide (m ∈ seeds)) as [Hin|Hout].
    + right. exact Hin.
    + left. split; [exact Hex|]. intros _. exact Hout.
  - intros [[Hex _]|Hin].
    + split; [exact Hex|discriminate].
    + split; [|discriminate]. exists m. split; [exact Hin|].
      apply seed_in_neighborhood; [|exact Hr].
      rewrite Forall_forall in Hv. apply Hv. exact Hin.
Qed.

(** X11: without [exclude_center], for valid seeds and a radius from 0
    on, every seed is in the union; that union is the one with exclusion
    together with the seeds, and its size is the size with exclusion plus
    the number of distinct seeds. *)
Theorem union_include_exclude (seeds : list Z) (radius : Z) (wrap : bool) :
  0 <= radius -> Forall (fun s => 1 <= s <= 49) seeds ->
  (forall s, s ∈ seeds -> s ∈ union_neighborhood seeds radius wrap false)
  /\ union_neighborhood seeds radius wrap false
     = union_neighborhood seeds radius wrap true ∪ list_to_set seeds
  /\ size (union_neighborhood seeds radius wrap false)
     = (size (union_neighborhood seeds radius wrap true)
        + size (list_to_set seeds : gset Z))%nat.
Proof.
  intros Hr Hv. pose proof (union_seeds_split seeds radius wrap Hr Hv) as E.
  split; [|split; [exact E|]].
  - intros s Hs. rewrite E. apply elem_of_union_r, elem_of_list_to_set, Hs.
  - rewrite E. apply size_union. intros m Hm Hin.
    apply elem_of_union_neighborhood in Hm as [_ Hm].
    apply elem_of_list_to_set in Hin. exact (Hm eq_refl Hin).
Qed.

Lemma union_include_exclude_witness :
  size (union_neighborhood [1; 2] 1 false false)
  = (size (union_neighborhood [1; 2]%Z 1 false true)
     + size (list_to_set [1; 2]%Z : gset Z))%nat.
Proof.
  apply (union_include_exclude [1; 2] 1 false); [lia|].
  repeat constructor; lia.
Defined.

(** ** The counts of a pair *)

Lemma int_truediv_Ok_wide (a b : Z) :
  b <> 0 -> Z.abs a < 2 ^ 116 ->
  Py.int_truediv a b
  = Py.Ok (SF2Prim (SFdiv prec emax (Py.int_as_spec a) (Py.int_as_spec b))).
Proof.
  intros Hb Ha. unfold Py.int_truediv. pose proof float_limit_lower.
  destruct (Z.eqb_spec b 0); [contradiction|].
  destruct (Z.ltb_spec (Z.abs a) (Py.float_limit * Z.abs b)); [reflexivity|].
  assert (Py.float_limit * 1 <= Py.float_limit * Z.abs b); [|lia].
  apply Z.mul_le_mono_nonneg_l; lia.
Qed.

Lemma moments_Ok (n K : Z) :
  0 <= n < 2 ^ 63 -> 0 <= K < 50 -> exists ev, moments n K = Py.Ok ev.
Proof.
  intros Hn HK. unfold moments, POP_SIZE.
  rewrite (int_truediv_Ok_wide K 49) by lia. rewrite bind_Ok.
  rewrite (float_of_int_Ok n) by lia. rewrite !bind_Ok.
  rewrite (float_of_int_Ok 1) by (vm_compute; reflexivity). rewrite bind_Ok.
  rewrite (int_truediv_Ok_wide (49 - n) (49 - 1)) by lia. rewrite bind_Ok.
  eexists. reflexivity.
Qed.

Lemma sum_int_ones {A} (l : list A) :
  Py.sum_int ((fun _ => 1) <$> l) = Py.len l.
Proof.
  unfold Py.sum_int, Py.len.
  assert (Hgen : forall a, foldl Z.add a ((fun _ => 1) <$> l)
                           = a + Z.of_nat (length l)).
  { induction l as [|x l IH]; intros a; cbn [fmap list_fmap foldl length].
    - lia.
    - rewrite IH. lia. }
  rewrite Hgen. lia.
Qed.

Lemma len_bound (l : list Z) : 0 <= Py.len l.
Proof. unfold Py.len. lia. Qed.

(** [pair_stats] returns for every current draw of a length a list can
    have. *)
Lemma pair_stats_Ok (prev curr : list Z) (radius : Z) (wrap excl : bool) :
  Py.len curr < 2 ^ 63 ->
  exists e v,
    pair_stats prev curr radius wrap excl
    = Py.Ok {| U_size :=
                 Z.of_nat (size (union_neighborhood prev radius wrap excl));
               hits :=
                 Py.len (filter (fun n =>
                                   n ∈ union_neighborhood prev radius wrap excl)
                                curr);
               exp := e; var := v |}.
Proof.
  intros Hn. rewrite pair_stats_moments, sum_int_ones.
  destruct (moments_Ok (Py.len curr)
              (Z.of_nat (size (union_neighborhood prev radius wrap excl))))
    as [[e v] E].
  - pose proof (len_bound curr). lia.
  - apply union_size_bound.
  - rewrite E, bind_Ok. exists e, v. reflexivity.
Qed.

Lemma filter_set_inter (U : gset Z) (l : list Z) :
  list_to_set (filter (fun n => n ∈ U) l) = U ∩ (list_to_set l : gset Z).
Proof.
  apply set_eq. intros m.
  rewrite elem_of_intersection, !elem_of_list_to_set, list_elem_of_filter.
  tauto.
Qed.

(** X12: [pair_stats] returns for every previous draw and every current
    draw of a length a list can have; [U_size] is the size of the union,
    between 0 and 49; [hits] is the number of entries of the current draw
    that lie in the union, between 0 and the length of the draw; for a
    current draw without duplicates it is the size of the intersection,
    and at most [U_size]. *)
Theorem pair_stats_counts (prev curr : list Z) (radius : Z)
    (wrap excl : bool) :
  Py.len curr < 2 ^ 63 ->
  exists p,
    pair_stats prev curr radius wrap excl = Py.Ok p
    /\ U_size p = Z.of_nat (size (union_neighborhood prev radius wrap excl))
    /\ 0 <= U_size p <= 49
    /\ hits p
       = Py.len (filter (fun n => n ∈ union_neighborhood prev radius wrap excl)
                        curr)
    /\ 0 <= hits p <= Py.len curr
    /\ (NoDup curr ->
        hits p = Z.of_nat (size (union_neighborhood prev radius wrap excl
                                 ∩ list_to_set curr))
        /\ hits p <= U_size p).
Proof.
  intros Hn. destruct (pair_stats_Ok prev curr radius wrap excl Hn)
    as (e & v & E).
  eexists. split; [exact E|]. cbn [U_size hits].
  pose proof (union_size_bound prev radius wrap excl) as HK.
  set (U := union_neighborhood prev radius wrap excl) in *.
  split; [reflexivity|]. split; [lia|]. split; [reflexivity|].
  split.
  - pose proof (length_filter (fun n => n ∈ U) curr). unfold Py.len. lia.
  - intros Hnd.
    assert (Hs : Py.len (filter (fun n => n ∈ U) curr)
                 = Z.of_nat (size (U ∩ list_to_set curr))).
    { rewrite <- filter_set_inter, size_list_to_set
        by (apply NoDup_filter; exact Hnd).
      reflexivity. }
    split; [exact Hs|]. rewrite Hs.
    apply Nat2Z.inj_le, subseteq_size. apply intersection_subseteq_l.
Qed.

Lemma pair_stats_counts_witness :
  exists p,
    pair_stats [1; 2] [2; 30] 1 false false = Py.Ok p
    /\ U_size p = 6 /\ hits p = 1.
Proof.
  destruct (pair_stats_counts [1; 2] [2; 30] 1 false false)
    as (p & E & HU & _ & Hh & _).
  - vm_compute. reflexivity.
  - exists p. split; [exact E|]. rewrite HU, Hh. split; vm_compute; reflexivity.
Defined.

Lemma filter_all {A} (P : A -> Prop) `{!forall x, Decision (P x)}
    (l : list A) :
  Forall P l -> filter P l = l.
Proof.
  induction 1 as [|x l Hx Hl IH]; [reflexivity|].
  rewrite filter_cons_True by exact Hx. rewrite IH. reflexivity.
Qed.

Lemma filter_none {A} (P : A -> Prop) `{!forall x, Decision (P x)}
    (l : list A) :
  Forall (fun x => ~ P x) l -> filter P l = [].
Proof.
  induction 1 as [|x l Hx Hl IH]; [reflexivity|].
  rewrite filter_cons_False by exact Hx. exact IH.
Qed.

(** X13: a draw compared with itself: with [exclude_center] it has no
    hit; without it, for valid numbers and a radius from 0 on, every entry
    is a hit. *)
Theorem pair_stats_same_draw (nums : list Z) (radius : Z) (wrap : bool) :
  Py.len nums < 2 ^ 63 ->
  (exists p, pair_stats nums nums radius wrap true = Py.Ok p /\ hits p = 0)
  /\ (0 <= radius -> Forall (fun s => 1 <= s <= 49) nums ->
      exists p, pair_stats nums nums radius wrap false = Py.Ok p
                /\ hits p = Py.len nums).
Proof.
  intros Hn. split.
  - destruct (pair_stats_Ok nums nums radius wrap true Hn) as (e & v & E).
    eexists. split; [exact E|]. cbn [hits].
    rewrite filter_none; [reflexivity|].
    apply Forall_forall. intros x Hx Hin.
    apply elem_of_union_neighborhood in Hin as [_ Hin]. exact (Hin eq_refl Hx).
  - intros Hr Hv.
    destruct (pair_stats_Ok nums nums radius wrap false Hn) as (e & v & E).
    eexists. split; [exact E|]. cbn [hits].
    rewrite filter_all; [reflexivity|].
    apply Forall_forall. intros x Hx.
    rewrite (union_seeds_split nums radius wrap Hr Hv).
    apply elem_of_union_r, elem_of_list_to_set, Hx.
Qed.

Lemma pair_stats_same_draw_witness :
  exists p, pair_stats [5; 17; 23] [5; 17; 23] 2 true true = Py.Ok p
            /\ hits p = 0.
Proof.
  apply (pair_stats_same_draw [5; 17; 23] 2 true). vm_compute. reflexivity.
Defined.

Lemma moments_sign_table :
  forallb (fun n => forallb (fun K => moments_sign_ok n K) (Py.range 0 50))
          (Py.range 0 50) = true.
Proof. vm_compute. reflexivity. Qed.

(** X14: for a current draw of n <= 49 numbers and a union of size K the
    float moments are in range: 0 <= exp <= n, exp <= K and var >= 0; and
    var > 0 exactly when 0 < n < 49 and 0 < K < 49, so that a pair adds to
    the total variance unless the draw or the union is empty or the whole
    population. *)
Theorem pair_stats_moment_signs (prev curr : list Z) (radius : Z)
    (wrap excl : bool) :
  Py.len curr <= 49 ->
  exists p,
    pair_stats prev curr radius wrap excl = Py.Ok p
    /\ PrimFloat.leb PrimFloat.zero (exp p) = true
    /\ PrimFloat.leb (exp p) (Py.round_int (Py.len curr)) = true
    /\ PrimFloat.leb (exp p) (Py.round_int (U_size p)) = true
    /\ PrimFloat.leb PrimFloat.zero (var p) = true
    /\ (PrimFloat.ltb PrimFloat.zero (var p) = true
        <-> 0 < Py.len curr < 49 /\ 0 < U_size p < 49).
Proof.
  intros Hn. rewrite pair_stats_moments.
  pose proof (union_size_bound prev radius wrap excl) as HK.
  pose proof (len_bound curr) as Hn0.
  generalize dependent
    (Z.of_nat (size (union_neighborhood prev radius wrap excl))).
  intros K HK.
  generalize (Py.sum_int
       ((fun _ => 1)
          <$> filter (fun n => n ∈ union_neighborhood prev radius wrap excl)
                     curr)). intros h.
  generalize dependent (Py.len curr). intros n Hn Hn0.
  pose proof (forallb_range _ 0 50 moments_sign_table n ltac:(lia)) as H.
  cbv beta in H.
  pose proof (forallb_range _ 0 50 H K HK) as H'. cbv beta in H'.
  unfold moments_sign_ok in H'.
  destruct (moments n K) as [[e v]|]; [|discriminate H'].
  rewrite bind_Ok. eexists. split; [reflexivity|]. cbn [exp var U_size fst snd].
  apply andb_prop in H' as [H' H5]. apply andb_prop in H' as [H' H4].
  apply andb_prop in H' as [H' H3]. apply andb_prop in H' as [H1 H2].
  split; [exact H1|]. split; [exact H2|]. split; [exact H3|].
  split; [exact H4|].
  apply Bool.eqb_prop in H5. rewrite H5. apply bool_decide_eq_true.
Qed.

Lemma pair_stats_moment_signs_witness :
  exists p,
    pair_stats [1; 2] [2; 30] 1 false false = Py.Ok p
    /\ PrimFloat.ltb PrimFloat.zero (var p) = true.
Proof.
  destruct (pair_stats_moment_signs [1; 2] [2; 30] 1 false false)
    as (p & E & _ & _ & _ & _ & Hv).
  - vm_compute. discriminate.
  - exists p. split; [exact E|]. apply Hv.
    assert (HU : U_size p = 6).
    { revert E. vm_compute. intros E. injection E as <-. reflexivity. }
    rewrite HU. vm_compute. repeat split; reflexivity.
Defined.

(** ** The loader *)

Lemma load_draws_omap (data : list (string * list Z)) :
  load_draws data = omap kept_draw data.
Proof.
  unfold load_draws.
  assert (Hgen : forall acc : list Draw,
    foldl (fun out row =>
           let date := row.1 in
           let nums := filter (fun n => 1 <= n <= 49) row.2 in
           if bool_decide (date = "YYYY-MM-DD"%string)
              || bool_decide (nums = [])
           then out
           else out ++ [ {| date := date;
                            numbers := merge_sort Z.le
                                         (elements (list_to_set nums
                                                      : gset Z)) |} ])
        acc data = acc ++ omap kept_draw data).
  { induction data as [|row data IH]; intros acc; cbn [foldl omap list_omap].
    - rewrite app_nil_r. reflexivity.
    - rewrite IH. unfold kept_draw. cbv zeta.
      destruct (bool_decide (row.1 = "YYYY-MM-DD"%string)
                || bool_decide (filter (fun n => 1 <= n <= 49) row.2 = [])).
      + reflexivity.
      + rewrite <- app_assoc. reflexivity. }
  exact (Hgen []).
Qed.

(** The numbers of a kept draw. *)
Lemma sorted_set_spec (nums : list Z) :
  Sorted Z.le (merge_sort Z.le (elements (list_to_set nums : gset Z)))
  /\ NoDup (merge_sort Z.le (elements (list_to_set nums : gset Z)))
  /\ forall n, n ∈ merge_sort Z.le (elements (list_to_set nums : gset Z))
               <-> n ∈ nums.
Proof.
  split; [apply Sorted_merge_sort; apply _|]. split.
  - rewrite merge_sort_Permutation. apply NoDup_elements.
  - intros n. rewrite merge_sort_Permutation, elem_of_elements.
    apply elem_of_list_to_set.
Qed.

Lemma valid_list_len (l : list Z) :
  NoDup l -> (forall n, n ∈ l -> 1 <= n <= 49) -> Py.len l <= 49.
Proof.
  intros Hnd Hv. unfold Py.len.
  rewrite <- (size_list_to_set (C := gset Z) l Hnd).
  assert (H : (list_to_set l : gset Z) ⊆ list_to_set (Py.range 1 50)).
  { intros m Hm. apply elem_of_list_to_set in Hm.
    apply elem_of_list_to_set, elem_of_range. specialize (Hv m Hm). lia. }
  apply subseteq_size in H.
  rewrite (size_list_to_set (Py.range 1 50)) in H by apply NoDup_seqZ.
  unfold Py.range in H. rewrite length_seqZ in H. lia.
Qed.

Lemma kept_draw_Some (row : string * list Z) (d : Draw) :
  kept_draw row = Some d ->
  date d = row.1
  /\ date d <> "YYYY-MM-DD"%string
  /\ numbers d <> []
  /\ Sorted Z.le (numbers d)
  /\ NoDup (numbers d)
  /\ (forall n, n ∈ numbers d <-> n ∈ row.2 /\ 1 <= n <= 49)
  /\ Py.len (numbers d) <= 49.
Proof.
  unfold kept_draw. cbv zeta.
  destruct (bool_decide (row.1 = "YYYY-MM-DD"%string)) eqn:Hd;
    [discriminate|].
  destruct (bool_decide (filter (fun n => 1 <= n <= 49) row.2 = [])) eqn:Hf;
    [discriminate|].
  cbn [orb]. intros [= <-]. cbn [date numbers].
  apply bool_decide_eq_false in Hd, Hf.
  destruct (sorted_set_spec (filter (fun n => 1 <= n <= 49) row.2))
    as (Hs & Hnd & Hin).
  assert (Hmem : forall n,
    n ∈ merge_sort Z.le
          (elements (list_to_set (filter (fun n => 1 <= n <= 49) row.2)
                     : gset Z))
    <-> n ∈ row.2 /\ 1 <= n <= 49).
  { intros n. rewrite Hin, list_elem_of_filter. tauto. }
  split; [reflexivity|]. split; [exact Hd|]. split.
  - intros E. destruct (filter (fun n => 1 <= n <= 49) row.2) as [|x l] eqn:El;
      [contradiction|].
    assert (Hx : x ∈ @nil Z); [|by apply elem_of_nil in Hx].
    rewrite <- E. apply Hin. apply list_elem_of_here.
  - split; [exact Hs|]. split; [exact Hnd|]. split; [exact Hmem|].
    apply valid_list_len; [exact Hnd|]. intros n Hn. apply Hmem in Hn. tauto.
Qed.

(** X15: every draw the loader keeps comes from a record of the data: it
    has the date of the record, which is not the placeholder; its numbers
    are not empty, ascending, without duplicates, exactly the numbers of
    the record that lie within 1..49, and at most 49. *)
Theorem load_draws_normalised (data : list (string * list Z)) (d : Draw) :
  d ∈ load_draws data ->
  exists row,
    row ∈ data
    /\ date d = row.1
    /\ date d <> "YYYY-MM-DD"%string
    /\ numbers d <> []
    /\ Sorted Z.le (numbers d)
    /\ NoDup (numbers d)
    /\ (forall n, n ∈ numbers d <-> n ∈ row.2 /\ 1 <= n <= 49)
    /\ Py.len (numbers d) <= 49.
Proof.
  rewrite load_draws_omap, list_elem_of_omap. intros (row & Hrow & Hk).
  exists row. split; [exact Hrow|]. exact (kept_draw_Some row d Hk).
Qed.

Lemma load_draws_normalised_witness :
  Sorted Z.le [3; 7] /\ NoDup [3; 7] /\ Py.len [3; 7] <= 49.
Proof.
  destruct (load_draws_normalised
              [("2025-10-23"%string, [7; 77; 3; 7])]
              {| date := "2025-10-23"; numbers := [3; 7] |})
    as (row & _ & _ & _ & _ & Hs & Hnd & _ & Hl).
  - vm_compute. apply list_elem_of_here.
  - split; [exact Hs|]. split; [exact Hnd|exact Hl].
Defined.

(** X16: the loader works record by record: loading a concatenation gives
    the concatenation of the loads; a single record is dropped exactly
    when its date is the placeholder or none of its numbers lies within
    1..49; and there are never more draws than records. *)
Theorem load_draws_rows :
  (forall d1 d2, load_draws (d1 ++ d2) = load_draws d1 ++ load_draws d2)
  /\ (forall row,
        load_draws [row] = []
        <-> row.1 = "YYYY-MM-DD"%string
            \/ Forall (fun n => ~ 1 <= n <= 49) row.2)
  /\ forall data, (length (load_draws data) <= length data)%nat.
Proof.
  split; [|split].
  - intros d1 d2. rewrite !load_draws_omap. apply omap_app.
  - intros row. rewrite load_draws_omap. cbn [omap list_omap].
    unfold kept_draw. cbv zeta.
    destruct (bool_decide_reflect (row.1 = "YYYY-MM-DD"%string)) as [Hd|Hd].
    + cbn [orb]. tauto.
    + cbn [orb].
      destruct (bool_decide_reflect
                  (filter (fun n => 1 <= n <= 49) row.2 = [])) as [Hf|Hf].
      * split; [|reflexivity]. intros _. right.
        apply Forall_forall. intros n Hn Hv.
        assert (Hx : n ∈ filter (fun n => 1 <= n <= 49) row.2)
          by (apply list_elem_of_filter; tauto).
        rewrite Hf in Hx. by apply elem_of_nil in Hx.
      * split; [discriminate|]. intros [H|H]; [contradiction|].
        exfalso. apply Hf. apply filter_none. exact H.
  - intros data. rewrite load_draws_omap.
    induction data as [|row data IH]; cbn [omap list_omap length]; [lia|].
    destruct (kept_draw row); cbn [length]; lia.
Qed.

(** X17: loading is idempotent on what it keeps: a kept draw, given again
    as a record, is loaded as itself. *)
Theorem load_draws_idempotent (data : list (string * list Z)) (d : Draw) :
  d ∈ load_draws data -> load_draws [(date d, numbers d)] = [d].
Proof.
  rewrite load_draws_omap, list_elem_of_omap. intros (row & _ & Hk).
  destruct (kept_draw_Some row d Hk) as (_ & Hd & Hne & Hs & Hnd & Hmem & _).
  rewrite load_draws_omap. cbn [omap list_omap]. unfold kept_draw.
  cbv zeta. cbn [fst snd].
  rewrite (filter_all (fun n => 1 <= n <= 49) (numbers d))
    by (apply Forall_forall; intros n Hn; apply Hmem in Hn; tauto).
  rewrite bool_decide_eq_false_2 by exact Hd.
  rewrite bool_decide_eq_false_2 by exact Hne. cbn [orb].
  replace (merge_sort Z.le (elements (list_to_set (numbers d) : gset Z)))
    with (numbers d); [destruct d; reflexivity|].
  apply (Sorted_unique Z.le); [exact Hs|apply Sorted_merge_sort; apply _|].
  rewrite merge_sort_Permutation. symmetry.
  apply elements_list_to_set. exact Hnd.
Qed.

Lemma load_draws_idempotent_witness :
  load_draws [(date {| date := "2025-10-23"; numbers := [3; 7] |},
               numbers {| date := "2025-10-23"; numbers := [3; 7] |})]
  = [ {| date := "2025-10-23"; numbers := [3; 7] |} ].
Proof.
  apply (load_draws_idempotent [("2025-10-23"%string, [7; 77; 3; 7])]).
  vm_compute. apply list_elem_of_here.
Defined.

(** ** The histogram of hits *)

Lemma Counter_fold_lookup (keys : list Z) (h : gmap Z Z) (k : Z) :
  foldl (fun h k => <[ k := default 0 (h !! k) + 1 ]> h) h keys !! k
  = match h !! k with
    | Some c => Some (c + Py.len (filter (fun x => x = k) keys))
    | None => if decide (Py.len (filter (fun x => x = k) keys) = 0)
              then None
              else Some (Py.len (filter (fun x => x = k) keys))
    end.
Proof.
  revert h. induction keys as [|x keys IH]; intros h; cbn [foldl].
  - rewrite filter_nil. unfold Py.len. cbn [length].
    change (Z.of_nat 0) with 0.
    destruct (h !! k) as [c|]; [f_equal; lia|reflexivity].
  - rewrite IH. destruct (decide (x = k)) as [->|Hne].
    + rewrite lookup_insert_eq, filter_cons_True by reflexivity.
      unfold Py.len. cbn [length]. rewrite Nat2Z.inj_succ.
      destruct (h !! k) as [c|]; cbn [default from_option id].
      * f_equal. lia.
      * destruct (decide (Z.succ (Z.of_nat
                    (length (filter (fun x => x = k) keys))) = 0)); [lia|].
        f_equal. lia.
    + rewrite lookup_insert_ne by exact Hne.
      rewrite filter_cons_False by exact Hne. reflexivity.
Qed.

Lemma Counter_lookup (keys : list Z) (k c : Z) :
  Counter keys !! k = Some c
  <-> c = Py.len (filter (fun x => x = k) keys) /\ 0 < c.
Proof.
  unfold Counter. rewrite Counter_fold_lookup, lookup_empty.
  pose proof (len_bound (filter (fun x => x = k) keys)).
  destruct (decide (Py.len (filter (fun x => x = k) keys) = 0)).
  - split; [discriminate|]. lia.
  - split; [intros [= <-]; lia|]. intros [-> _]. reflexivity.
Qed.

Lemma sum_int_cons (x : Z) (l : list Z) :
  Py.sum_int (x :: l) = x + Py.sum_int l.
Proof.
  unfold Py.sum_int. cbn [foldl].
  assert (Hgen : forall a b, foldl Z.add (a + b) l = a + foldl Z.add b l).
  { induction l as [|y l IH]; intros a b; cbn [foldl]; [reflexivity|].
    rewrite <- Z.add_assoc. apply IH. }
  rewrite Z.add_comm. exact (Hgen x 0).
Qed.

Lemma sum_int_Permutation (l1 l2 : list Z) :
  l1 ≡ₚ l2 -> Py.sum_int l1 = Py.sum_int l2.
Proof.
  induction 1 as [|x l1 l2 _ IH|x y l|l1 l2 l3 _ IH1 _ IH2].
  - reflexivity.
  - rewrite !sum_int_cons, IH. reflexivity.
  - rewrite !sum_int_cons. lia.
  - congruence.
Qed.

Lemma Counter_fold_total (keys : list Z) (h : gmap Z Z) :
  Py.sum_int
    ((map_to_list
        (foldl (fun h k => <[ k := default 0 (h !! k) + 1 ]> h) h keys)).*2)
  = Py.sum_int ((map_to_list h).*2) + Py.len keys.
Proof.
  revert h. induction keys as [|x keys IH]; intros h; cbn [foldl].
  - unfold Py.len. cbn [length]. change (Z.of_nat 0) with 0. lia.
  - rewrite IH. unfold Py.len. cbn [length]. rewrite Nat2Z.inj_succ.
    assert (E : Py.sum_int
                  ((map_to_list (<[ x := default 0 (h !! x) + 1 ]> h)).*2)
                = Py.sum_int ((map_to_list h).*2) + 1); [|lia].
    destruct (h !! x) as [c|] eqn:Hx; cbn [default from_option id].
    + rewrite <- insert_delete_eq.
      rewrite (sum_int_Permutation _ _
                 (fmap_Permutation snd _ _
                    (map_to_list_insert (delete x h) x (c + 1)
                       (lookup_delete_eq h x)))).
      rewrite <- (sum_int_Permutation _ _
                    (fmap_Permutation snd _ _ (map_to_list_delete h x c Hx))).
      cbn [fmap list_fmap snd]. rewrite !sum_int_cons. lia.
    + rewrite (sum_int_Permutation _ _
                 (fmap_Permutation snd _ _
                    (map_to_list_insert h x (0 + 1) Hx))).
      cbn [fmap list_fmap snd]. rewrite sum_int_cons. lia.
Qed.

#[local] Instance key_le_trans : Transitive key_le.
Proof. intros a b c. unfold key_le. lia. Qed.

#[local] Instance key_le_total : Total key_le.
Proof. intros a b. unfold key_le. lia. Qed.

Lemma sorted_keys_strict (l : list (Z * Z)) :
  StronglySorted key_le l -> NoDup (l.*1) ->
  StronglySorted (fun a b : Z * Z => a.1 < b.1) l.
Proof.
  induction 1 as [|a l Hl IH Ha]; intros Hnd; [constructor|].
  cbn [fmap list_fmap] in Hnd. apply NoDup_cons in Hnd as [Hnin Hnd].
  constructor; [exact (IH Hnd)|].
  apply Forall_forall. intros b Hb. rewrite Forall_forall in Ha.
  specialize (Ha b Hb). unfold key_le in Ha.
  assert (a.1 <> b.1); [|lia].
  intros E. apply Hnin. rewrite E. apply list_elem_of_fmap. exists b. auto.
Qed.

(** The histogram [summarize] builds from the hit counts. *)
Lemma hist_spec (keys : list Z) :
  StronglySorted (fun a b : Z * Z => a.1 < b.1)
                 (merge_sort key_le (map_to_list (Counter keys)))
  /\ (forall k c,
        (k, c) ∈ merge_sort key_le (map_to_list (Counter keys))
        <-> c = Py.len (filter (fun x => x = k) keys) /\ 0 < c)
  /\ Py.sum_int ((merge_sort key_le (map_to_list (Counter keys))).*2)
     = Py.len keys.
Proof.
  split; [|split].
  - apply sorted_keys_strict.
    + apply StronglySorted_merge_sort; apply _.
    + rewrite merge_sort_Permutation. apply NoDup_fst_map_to_list.
  - intros k c. rewrite merge_sort_Permutation, elem_of_map_to_list.
    apply Counter_lookup.
  - rewrite (sum_int_Permutation _ _
               (fmap_Permutation snd _ _
                  (merge_sort_Permutation key_le _))).
    unfold Counter. rewrite Counter_fold_total, map_to_list_empty.
    cbn [fmap list_fmap]. unfold Py.sum_int at 1. cbn [foldl]. lia.
Qed.

(** ** The summary *)

(** [summarize] returns on every non-empty sequence; the fields of the
    summary. *)
Lemma summarize_Ok (ps : list PairResult) :
  ps <> [] -> Py.len ps < 2 ^ 63 -> Forall counts_in_range ps ->
  exists z au ah ae cv,
    summarize ps
    = Py.Ok {| pairs := Py.len ps;
               total_hits := Py.sum_int (hits <$> ps);
               total_exp := Py.sum_float (exp <$> ps);
               total_var := Py.sum_float (var <$> ps);
               z_score := z;
               avg_hits_per_pair := ah;
               avg_exp_per_pair := ae;
               avg_U_size := au;
               avg_U_cover_pct := cv;
               hist_hits :=
                 merge_sort key_le (map_to_list (Counter (hits <$> ps))) |}.
Proof.
  intros Hne Hlen Hrange.
  pose proof (len_pos ps Hne) as Hpos.
  assert (Hh : Z.abs (Py.sum_int (hits <$> ps)) <= 2 ^ 53 * Py.len ps).
  { replace (Py.len ps) with (Py.len (hits <$> ps))
      by (unfold Py.len; rewrite length_fmap; reflexivity).
    apply sum_int_bound; [lia|]. apply Forall_fmap.
    eapply Forall_impl; [exact Hrange|]. intros p [Hp _]. exact Hp. }
  assert (Hu : Z.abs (Py.sum_int (U_size <$> ps)) <= 2 ^ 53 * Py.len ps).
  { replace (Py.len ps) with (Py.len (U_size <$> ps))
      by (unfold Py.len; rewrite length_fmap; reflexivity).
    apply sum_int_bound; [lia|]. apply Forall_fmap.
    eapply Forall_impl; [exact Hrange|]. intros p [_ Hp]. exact Hp. }
  assert (Hz : exists z,
    (if PrimFloat.ltb PrimFloat.zero (Py.sum_float (var <$> ps))
     then hf ← Py.float_of_int (Py.sum_int (hits <$> ps));
          sd ← Py.math_sqrt (Py.sum_float (var <$> ps));
          Py.float_truediv (PrimFloat.sub hf (Py.sum_float (exp <$> ps))) sd
     else mret PrimFloat.nan) = Py.Ok z).
  { destruct (PrimFloat.ltb PrimFloat.zero (Py.sum_float (var <$> ps)))
      eqn:Hv.
    - rewrite float_of_int_Ok by lia. rewrite bind_Ok.
      rewrite (math_sqrt_Ok _ Hv), bind_Ok.
      rewrite (float_truediv_Ok _ _ (sqrt_pos_nonzero _ Hv)).
      eexists. reflexivity.
    - eexists. reflexivity. }
  destruct Hz as (z & Ez).
  unfold summarize. cbv zeta. rewrite Ez, bind_Ok.
  rewrite (int_truediv_Ok (Py.sum_int (U_size <$> ps)) (Py.len ps))
    by lia. rewrite bind_Ok.
  rewrite (int_truediv_Ok (Py.sum_int (hits <$> ps)) (Py.len ps))
    by lia. rewrite bind_Ok.
  rewrite (float_of_int_Ok (Py.len ps)) by lia. rewrite bind_Ok.
  rewrite float_truediv_Ok by (apply round_int_nonzero; lia).
  rewrite bind_Ok.
  rewrite (float_of_int_Ok 100) by (vm_compute; reflexivity).
  rewrite bind_Ok.
  rewrite (float_of_int_Ok POP_SIZE) by (vm_compute; reflexivity).
  rewrite bind_Ok.
  rewrite float_truediv_Ok by (vm_compute; reflexivity). rewrite bind_Ok.
  do 5 eexists. reflexivity.
Qed.

(** X18: on a non-empty sequence of pair results [summarize] returns a
    summary whose [pairs] is the length and whose histogram has strictly
    ascending keys, holds (k, c) exactly when c > 0 pairs have k hits, and
    has counts that add up to the number of pairs. *)
Theorem summarize_histogram (ps : list PairResult) :
  ps <> [] -> Py.len ps < 2 ^ 63 -> Forall counts_in_range ps ->
  exists S,
    summarize ps = Py.Ok S
    /\ pairs S = Py.len ps
    /\ StronglySorted (fun a b : Z * Z => a.1 < b.1) (hist_hits S)
    /\ (forall k c,
          (k, c) ∈ hist_hits S
          <-> c = Py.len (filter (fun h => h = k) (hits <$> ps)) /\ 0 < c)
    /\ Py.sum_int ((hist_hits S).*2) = pairs S.
Proof.
  intros Hne Hlen Hrange.
  destruct (summarize_Ok ps Hne Hlen Hrange) as (z & au & ah & ae & cv & E).
  eexists. split; [exact E|]. cbn [pairs hist_hits].
  destruct (hist_spec (hits <$> ps)) as (Hs & Hm & Ht).
  split; [reflexivity|]. split; [exact Hs|]. split; [exact Hm|].
  rewrite Ht. unfold Py.len. rewrite length_fmap. reflexivity.
Qed.

Lemma summarize_histogram_witness :
  exists S,
    summarize [ {| U_size := 10; hits := 1; exp := 1; var := 0.5 |};
                {| U_size := 12; hits := 3; exp := 2; var := 0.5 |};
                {| U_size := 12; hits := 1; exp := 2; var := 0.5 |} ]
    = Py.Ok S
    /\ Py.sum_int ((hist_hits S).*2) = 3.
Proof.
  destruct (summarize_histogram
              [ {| U_size := 10; hits := 1; exp := 1; var := 0.5 |};
                {| U_size := 12; hits := 3; exp := 2; var := 0.5 |};
                {| U_size := 12; hits := 1; exp := 2; var := 0.5 |} ])
    as (S & HS & Hp & _ & _ & Ht).
  - discriminate.
  - vm_compute. reflexivity.
  - repeat constructor; vm_compute; discriminate.
  - exists S. split; [exact HS|]. rewrite Ht, Hp. vm_compute. reflexivity.
Defined.

(** ** The mean size of a single neighbourhood *)

Lemma sum_int_between (lo hi : Z) (l : list Z) :
  Forall (fun x => lo <= x <= hi) l ->
  lo * Py.len l <= Py.sum_int l <= hi * Py.len l.
Proof.
  unfold Py.len.
  induction 1 as [|x l Hx Hl IH].
  - unfold Py.sum_int. cbn [foldl length]. lia.
  - rewrite sum_int_cons. cbn [length]. rewrite Nat2Z.inj_succ. lia.
Qed.

Lemma neighborhood_size_bound (seed radius : Z) (wrap : bool) :
  0 <= Z.of_nat (size (neighborhood seed radius wrap)) <= 49.
Proof.
  split; [lia|].
  assert (H : neighborhood seed radius wrap ⊆ list_to_set (Py.range 1 50)).
  { intros m Hm. apply elem_of_list_to_set, elem_of_range.
    pose proof (neighborhood_valid _ _ _ _ Hm). lia. }
  apply subseteq_size in H.
  rewrite size_list_to_set in H by apply NoDup_seqZ.
  unfold Py.range in H. rewrite length_seqZ in H. lia.
Qed.

Lemma sizes_sum_bound (radius : Z) (wrap : bool) :
  0 <= Py.sum_int ((fun s => Z.of_nat (size (neighborhood s radius wrap)))
                     <$> Py.range 1 50) <= 49 * 49
  /\ Py.len ((fun s => Z.of_nat (size (neighborhood s radius wrap)))
               <$> Py.range 1 50) = 49.
Proof.
  set (sizes := (fun s => Z.of_nat (size (neighborhood s radius wrap)))
                  <$> Py.range 1 50).
  assert (Hlen : Py.len sizes = 49).
  { unfold Py.len, sizes, Py.range. rewrite length_fmap, length_seqZ.
    reflexivity. }
  assert (Hb : 0 * Py.len sizes <= Py.sum_int sizes <= 49 * Py.len sizes).
  { apply sum_int_between. unfold sizes. apply Forall_fmap, Forall_forall.
    intros s _. apply neighborhood_size_bound. }
  rewrite Hlen in Hb. split; [lia|exact Hlen].
Qed.

(** [theoretical_single_seed_size] returns for every radius and mode. *)
Lemma theoretical_single_seed_size_Ok (radius : Z) (wrap : bool) :
  theoretical_single_seed_size radius wrap
  = Py.Ok (SF2Prim
             (SFdiv prec emax
                (Py.int_as_spec
                   (Py.sum_int
                      ((fun s => Z.of_nat (size (neighborhood s radius wrap)))
                         <$> Py.range 1 50)))
                (Py.int_as_spec 49))).
Proof.
  destruct (sizes_sum_bound radius wrap) as [Hb Hlen].
  unfold theoretical_single_seed_size. rewrite Hlen.
  apply int_truediv_Ok; lia.
Qed.

(** X19: [theoretical_single_seed_size] returns for every radius and
    mode, also a negative radius: the quotient, rounded once, of the total
    size of the 49 neighbourhoods by 49; the total lies between 0 and
    49 * 49, and is at least 49 for a radius from 0 on. *)
Theorem theoretical_single_seed_size_returns (radius : Z) (wrap : bool) :
  exists total,
    total = Py.sum_int ((fun s => Z.of_nat (size (neighborhood s radius wrap)))
                          <$> Py.range 1 50)
    /\ theoretical_single_seed_size radius wrap
       = Py.Ok (SF2Prim (SFdiv prec emax (Py.int_as_spec total)
                               (Py.int_as_spec 49)))
    /\ 0 <= total <= 49 * 49
    /\ (0 <= radius -> 49 <= total).
Proof.
  eexists. split; [reflexivity|].
  split; [apply theoretical_single_seed_size_Ok|].
  destruct (sizes_sum_bound radius wrap) as [Hb Hlen].
  split; [exact Hb|]. intros Hr.
  set (sizes := (fun s => Z.of_nat (size (neighborhood s radius wrap)))
                  <$> Py.range 1 50) in *.
  assert (Hb1 : 1 * Py.len sizes <= Py.sum_int sizes <= 49 * Py.len sizes).
  { apply sum_int_between. unfold sizes. apply Forall_fmap, Forall_forall.
    intros s Hs. apply elem_of_range in Hs.
    pose proof (neighborhood_size_bound s radius wrap). split; [|lia].
    assert (H1 : ({[ s ]} : gset Z) ⊆ neighborhood s radius wrap).
    { apply singleton_subseteq_l, seed_in_neighborhood; lia. }
    apply subseteq_size in H1. rewrite size_singleton in H1. lia. }
  lia.
Qed.

(** ** The analysis of a list of draws *)

Lemma mapM_Ok {A B} (f : A -> Py.result B) (P : A -> B -> Prop)
    (l : list A) :
  (forall x, x ∈ l -> exists y, f x = Py.Ok y /\ P x y) ->
  exists ys, mapM f l = Py.Ok ys /\ Forall2 P l ys.
Proof.
  induction l as [|x l IH]; intros H.
  - exists []. split; [reflexivity|constructor].
  - destruct (H x (list_elem_of_here x l)) as (y & Ey & Py).
    destruct IH as (ys & Eys & Hys).
    { intros x' Hx'. apply H, list_elem_of_further, Hx'. }
    exists (y :: ys). split; [|constructor; assumption].
    cbn [mapM]. rewrite Ey, bind_Ok, Eys, bind_Ok. reflexivity.
Qed.

Lemma consecutive_length (draws : list Draw) :
  Py.len (consecutive draws) = Z.max 0 (Py.len draws - 1).
Proof.
  unfold Py.len.
  induction draws as [|d [|d' rest] IH]; cbn [consecutive length].
  - reflexivity.
  - reflexivity.
  - cbn [consecutive length] in IH. lia.
Qed.

Lemma elem_of_consecutive (draws : list Draw) (prev curr : Draw) :
  (prev, curr) ∈ consecutive draws -> prev ∈ draws /\ curr ∈ draws.
Proof.
  induction draws as [|d [|d' rest] IH]; cbn [consecutive].
  - intros H. by apply elem_of_nil in H.
  - intros H. by apply elem_of_nil in H.
  - intros H. apply elem_of_cons in H as [[= -> ->]|H].
    + split; [apply list_elem_of_here|].
      apply list_elem_of_further, list_elem_of_here.
    + destruct (IH H) as [H1 H2].
      split; apply list_elem_of_further; assumption.
Qed.

(** The pair results of consecutive draws, and their summary. *)
Lemma analyze_Ok (draws : list Draw) (radius : Z) (wrap excl : bool) :
  2 <= Py.len draws < 2 ^ 63 ->
  Forall (fun d => Py.len (numbers d) <= 2 ^ 53) draws ->
  exists ps S t,
    analyze draws radius wrap excl
    = Py.Ok {| summary := S; theory_single_seed := t |}
    /\ Forall2 (fun (pc : Draw * Draw) p =>
                  pair_stats (numbers pc.1) (numbers pc.2) radius wrap excl
                  = Py.Ok p)
               (consecutive draws) ps
    /\ summarize ps = Py.Ok S
    /\ theoretical_single_seed_size radius wrap = Py.Ok t
    /\ pairs S = Py.len draws - 1
    /\ Py.sum_int ((hist_hits S).*2) = Py.len draws - 1.
Proof.
  intros Hlen Hv.
  destruct (mapM_Ok
              (fun pc : Draw * Draw =>
                 pair_stats (numbers pc.1) (numbers pc.2) radius wrap excl)
              (fun pc p =>
                 pair_stats (numbers pc.1) (numbers pc.2) radius wrap excl
                 = Py.Ok p /\ counts_in_range p)
              (consecutive draws)) as (ps & Eps & Hps).
  { intros [prev curr] Hpc. cbn [fst snd].
    apply elem_of_consecutive in Hpc as [_ Hc].
    rewrite Forall_forall in Hv. specialize (Hv curr Hc).
    destruct (pair_stats_Ok (numbers prev) (numbers curr) radius wrap excl)
      as (e & v & E); [lia|].
    eexists. split; [exact E|]. split; [exact E|].
    unfold counts_in_range. cbn [hits U_size].
    pose proof (union_size_bound (numbers prev) radius wrap excl).
    pose proof (length_filter
                  (fun n => n ∈ union_neighborhood (numbers prev) radius wrap
                                                   excl) (numbers curr)).
    unfold Py.len in *. lia. }
  assert (Hl : Py.len ps = Py.len draws - 1).
  { pose proof (consecutive_length draws) as Hc.
    unfold Py.len in *. apply Forall2_length in Hps. lia. }
  destruct (summarize_Ok ps) as (z & au & ah & ae & cv & ES).
  { intros ->. unfold Py.len in *. cbn [length] in Hl. lia. }
  { lia. }
  { clear -Hps. induction Hps as [|pc p l ps [_ Hp] _ IH]; constructor;
      assumption. }
  pose proof (theoretical_single_seed_size_Ok radius wrap) as Et.
  eexists ps, _, _. unfold analyze.
  rewrite Eps, bind_Ok, ES, bind_Ok, Et, bind_Ok.
  split; [reflexivity|]. split.
  { clear -Hps. induction Hps as [|pc p l ps [Hp _] _ IH]; constructor;
      assumption. }
  split; [reflexivity|]. split; [reflexivity|]. cbn [pairs hist_hits].
  split; [exact Hl|].
  destruct (hist_spec (hits <$> ps)) as (_ & _ & Ht).
  rewrite Ht. unfold Py.len in *. rewrite length_fmap. exact Hl.
Qed.

(** X20: for two draws or more (each of a length in the exact float
    range) [analyze] returns: every consecutive pair has its pair result,
    the summary is that of these results, [pairs] is the number of draws
    less one, the histogram counts add up to it, and the added key holds
    the mean single-seed size. *)
Theorem analyze_returns (draws : list Draw) (radius : Z) (wrap excl : bool) :
  2 <= Py.len draws < 2 ^ 63 ->
  Forall (fun d => Py.len (numbers d) <= 2 ^ 53) draws ->
  exists A ps,
    analyze draws radius wrap excl = Py.Ok A
    /\ Forall2 (fun (pc : Draw * Draw) p =>
                  pair_stats (numbers pc.1) (numbers pc.2) radius wrap excl
                  = Py.Ok p)
               (consecutive draws) ps
    /\ summarize ps = Py.Ok (summary A)
    /\ theoretical_single_seed_size radius wrap
       = Py.Ok (theory_single_seed A)
    /\ pairs (summary A) = Py.len draws - 1
    /\ Py.sum_int ((hist_hits (summary A)).*2) = Py.len draws - 1.
Proof.
  intros Hlen Hv.
  destruct (analyze_Ok draws radius wrap excl Hlen Hv)
    as (ps & S & t & E & H).
  exists {| summary := S; theory_single_seed := t |}, ps.
  split; [exact E|exact H].
Qed.

Lemma analyze_returns_witness :
  exists A,
    analyze [ {| date := "2025-10-23"; numbers := [3; 14; 15] |};
              {| date := "2025-10-25"; numbers := [4; 15; 40] |};
              {| date := "2025-10-28"; numbers := [5; 16] |} ] 1 true false
    = Py.Ok A
    /\ pairs (summary A) = 2.
Proof.
  destruct (analyze_returns
              [ {| date := "2025-10-23"; numbers := [3; 14; 15] |};
                {| date := "2025-10-25"; numbers := [4; 15; 40] |};
                {| date := "2025-10-28"; numbers := [5; 16] |} ] 1 true false)
    as (A & ps & E & _ & _ & _ & Hp & _).
  - vm_compute. split; [discriminate|reflexivity].
  - repeat constructor; vm_compute; discriminate.
  - exists A. split; [exact E|]. rewrite Hp. vm_compute. reflexivity.
Defined.

(** ** The report *)

Lemma run_configs_Ok (draws : list Draw)
    (cfgs : list (string * bool * Z * bool)) (out : list output) :
  2 <= Py.len draws < 2 ^ 63 ->
  Forall (fun d => Py.len (numbers d) <= 2 ^ 53) draws ->
  exists res,
    run_configs draws cfgs out = (out ++ res, Py.Ok ())
    /\ Forall2 (fun (cfg : string * bool * Z * bool) o =>
                  exists A, analyze draws cfg.1.2 cfg.1.1.2 cfg.2 = Py.Ok A
                            /\ o = OutConfig cfg.1.1.1 A)
               cfgs res.
Proof.
  intros Hlen Hv. revert out.
  induction cfgs as [|[[[name wrap] r] excl] cfgs IH]; intros out.
  - exists []. rewrite app_nil_r. split; [reflexivity|constructor].
  - cbn [run_configs].
    destruct (analyze_Ok draws r wrap excl Hlen Hv) as (ps & S & t & E & _).
    rewrite E.
    destruct (IH (out ++ [OutConfig name
                            {| summary := S; theory_single_seed := t |}]))
      as (res & Er & Hres).
    rewrite Er, <- app_assoc. eexists. split; [reflexivity|].
    constructor; [|exact Hres]. cbn [fst snd]. eexists. split; [exact E|].
    reflexivity.
Qed.

Lemma example_modes_Ok (prev curr : list Z) (modes : list bool)
    (out : list output) :
  Py.len curr < 2 ^ 63 ->
  exists ex,
    example_modes prev curr modes out = (out ++ ex, Py.Ok ())
    /\ Forall2 (fun (wrap : bool) o =>
                  exists e c,
                    pair_stats prev curr 2 wrap false = Py.Ok e
                    /\ Py.int_truediv (100 * U_size e) POP_SIZE = Py.Ok c
                    /\ o = OutExample (if wrap then "wrap" else "no-wrap")
                                      prev curr e c)
               modes ex.
Proof.
  intros Hlen. revert out. induction modes as [|wrap modes IH]; intros out.
  - exists []. rewrite app_nil_r. split; [reflexivity|constructor].
  - cbn [example_modes].
    destruct (pair_stats_Ok prev curr 2 wrap false Hlen) as (e & v & E).
    rewrite E, bind_Ok. cbn [U_size].
    pose proof (union_size_bound prev 2 wrap false) as HK.
    assert (Ec : Py.int_truediv
                   (100 * Z.of_nat
                            (size (union_neighborhood prev 2 wrap false)))
                   POP_SIZE
                 = Py.Ok (SF2Prim
                     (SFdiv prec emax
                        (Py.int_as_spec
                           (100 * Z.of_nat
                              (size (union_neighborhood prev 2 wrap false))))
                        (Py.int_as_spec POP_SIZE))))
      by (apply int_truediv_Ok; unfold POP_SIZE; lia).
    rewrite Ec, bind_Ok. cbn [mret result_ret].
    match goal with
    | |- context [example_modes prev curr modes ?o] =>
        destruct (IH o) as (ex & Eex & Hex)
    end.
    rewrite Eex, <- app_assoc. eexists. split; [reflexivity|].
    constructor; [|exact Hex]. eexists _, _. split; [exact E|].
    cbn [U_size]. split; [exact Ec|reflexivity].
Qed.

Lemma example_loop_Ok (cs : list (Draw * Draw)) (out : list output) :
  Forall (fun pc : Draw * Draw => Py.len (numbers pc.2) < 2 ^ 63) cs ->
  exists ex,
    example_loop cs out = (out ++ ex, Py.Ok ())
    /\ ((Forall (fun pc : Draw * Draw =>
                   ~ (date pc.1 = "2025-10-23"%string
                      /\ date pc.2 = "2025-10-25"%string)) cs
         /\ ex = [])
        \/ exists pre prev curr post,
             cs = pre ++ (prev, curr) :: post
             /\ Forall (fun pc : Draw * Draw =>
                          ~ (date pc.1 = "2025-10-23"%string
                             /\ date pc.2 = "2025-10-25"%string)) pre
             /\ date prev = "2025-10-23"%string
             /\ date curr = "2025-10-25"%string
             /\ Forall2 (fun (wrap : bool) o =>
                  exists e c,
                    pair_stats (numbers prev) (numbers curr) 2 wrap false
                    = Py.Ok e
                    /\ Py.int_truediv (100 * U_size e) POP_SIZE = Py.Ok c
                    /\ o = OutExample (if wrap then "wrap" else "no-wrap")
                                      (numbers prev) (numbers curr) e c)
                  [false; true] ex).
Proof.
  induction 1 as [|[prev curr] cs Hpc Hcs IH].
  - exists []. rewrite app_nil_r. split; [reflexivity|].
    left. split; [constructor|reflexivity].
  - cbn [example_loop]. cbn [fst snd] in Hpc.
    destruct (bool_decide_reflect (date prev = "2025-10-23"%string)) as [Hp|Hp];
      [destruct (bool_decide_reflect (date curr = "2025-10-25"%string))
         as [Hc|Hc]|]; cbn [andb].
    + destruct (example_modes_Ok (numbers prev) (numbers curr) [false; true]
                  out Hpc) as (ex & Eex & Hex).
      exists ex. split; [exact Eex|]. right.
      exists [], prev, curr, cs. split; [reflexivity|].
      split; [constructor|]. split; [exact Hp|]. split; [exact Hc|exact Hex].
    + destruct IH as (ex & Eex & Hcase). exists ex. split; [exact Eex|].
      destruct Hcase as [[Hno ->]|(pre & p & c & post & -> & Hno & H)].
      * left. split; [|reflexivity]. constructor; [|exact Hno].
        cbn [fst snd]. tauto.
      * right. exists ((prev, curr) :: pre), p, c, post.
        split; [reflexivity|]. split; [|exact H].
        constructor; [|exact Hno]. cbn [fst snd]. tauto.
    + destruct IH as (ex & Eex & Hcase). exists ex. split; [exact Eex|].
      destruct Hcase as [[Hno ->]|(pre & p & c & post & -> & Hno & H)].
      * left. split; [|reflexivity]. constructor; [|exact Hno].
        cbn [fst snd]. tauto.
      * right. exists ((prev, curr) :: pre), p, c, post.
        split; [reflexivity|]. split; [|exact H].
        constructor; [|exact Hno]. cbn [fst snd]. tauto.
Qed.

Lemma consecutive_lens (draws : list Draw) :
  Forall (fun d => Py.len (numbers d) <= 2 ^ 53) draws ->
  Forall (fun pc : Draw * Draw => Py.len (numbers pc.2) < 2 ^ 63)
         (consecutive draws).
Proof.
  intros Hv. apply Forall_forall. intros [prev curr] Hpc.
  apply elem_of_consecutive in Hpc as [_ Hc].
  rewrite Forall_forall in Hv. specialize (Hv curr Hc). cbn [snd]. lia.
Qed.

(** With two draws or more [main] prints the count, the date range, one
    block per configuration and the example report, and returns. *)
Lemma main_Ok (draws : list Draw) :
  2 <= Py.len draws < 2 ^ 63 ->
  Forall (fun d => Py.len (numbers d) <= 2 ^ 53) draws ->
  exists res ex,
    main draws
    = (OutLoaded (Py.len draws)
         :: OutRange (from_option date ""%string (head draws))
                     (from_option date ""%string (last draws))
         :: res ++ ex,
       Py.Ok ())
    /\ Forall2 (fun (cfg : string * bool * Z * bool) o =>
                  exists A, analyze draws cfg.1.2 cfg.1.1.2 cfg.2 = Py.Ok A
                            /\ o = OutConfig cfg.1.1.1 A)
               configs res
    /\ example_loop (consecutive draws) [] = (ex, Py.Ok ()).
Proof.
  intros Hlen Hv. unfold main. cbv zeta.
  rewrite bool_decide_eq_false_2 by lia.
  destruct (run_configs_Ok draws configs
              ([OutLoaded (Py.len draws)]
                 ++ [OutRange (from_option date ""%string (head draws))
                              (from_option date ""%string (last draws))])
              Hlen Hv)
    as (res & Er & Hres).
  rewrite Er, example_loop_out.
  destruct (example_loop_Ok (consecutive draws) [] (consecutive_lens draws Hv))
    as (ex & E0 & _).
  rewrite E0. cbn [fst snd app].
  exists res, ex. split; [reflexivity|]. split; [exact Hres|reflexivity].
Qed.

(** X21: for two draws or more [main] raises nothing and prints, in this
    order: the count of draws, the dates of the first and the last draw,
    one block for each of the six configurations in the order of
    [configs], each with the result of [analyze] for its radius, mode and
    exclusion, and then the example report. *)
Theorem main_report (draws : list Draw) :
  2 <= Py.len draws < 2 ^ 63 ->
  Forall (fun d => Py.len (numbers d) <= 2 ^ 53) draws ->
  exists first final res ex,
    head draws = Some first
    /\ last draws = Some final
    /\ main draws
       = (OutLoaded (Py.len draws) :: OutRange (date first) (date final)
            :: res ++ ex,
          Py.Ok ())
    /\ Forall2 (fun (cfg : string * bool * Z * bool) o =>
                  exists A, analyze draws cfg.1.2 cfg.1.1.2 cfg.2 = Py.Ok A
                            /\ o = OutConfig cfg.1.1.1 A)
               configs res
    /\ example_loop (consecutive draws) [] = (ex, Py.Ok ()).
Proof.
  intros Hlen Hv.
  assert (Hne : draws <> []).
  { intros ->. unfold Py.len in Hlen. cbn [length] in Hlen. lia. }
  destruct (main_Ok draws Hlen Hv) as (res & ex & E & Hres & Hex).
  destruct (head draws) as [first|] eqn:Hh;
    [|apply head_None in Hh; contradiction].
  destruct (last draws) as [final|] eqn:Hl;
    [|apply last_None in Hl; contradiction].
  exists first, final, res, ex. split; [reflexivity|]. split; [reflexivity|].
  split; [exact E|]. split; [exact Hres|exact Hex].
Qed.

Lemma main_report_witness :
  exists res ex,
    main [ {| date := "2025-10-23"; numbers := [3; 14; 15] |};
           {| date := "2025-10-25"; numbers := [4; 15; 40] |} ]
    = (OutLoaded 2 :: OutRange "2025-10-23" "2025-10-25" :: res ++ ex,
       Py.Ok ())
    /\ length res = 6%nat.
Proof.
  destruct (main_report
              [ {| date := "2025-10-23"; numbers := [3; 14; 15] |};
                {| date := "2025-10-25"; numbers := [4; 15; 40] |} ])
    as (first & final & res & ex & Hf & Hl & E & Hres & _).
  - vm_compute. split; [discriminate|reflexivity].
  - repeat constructor; vm_compute; discriminate.
  - injection Hf as <-. injection Hl as <-.
    exists res, ex. split; [exact E|].
    apply Forall2_length in Hres. rewrite <- Hres. reflexivity.
Defined.

(** X22: the example report: when no consecutive pair is dated
    2025-10-23 -> 2025-10-25 nothing is printed; otherwise the first such
    pair, and only it, is reported, by two items, for no-wrap and then for
    wrap, each with the pair result at radius 2 without exclusion and the
    cover 100 * U_size / 49. *)
Theorem example_report (cs : list (Draw * Draw)) :
  Forall (fun pc : Draw * Draw => Py.len (numbers pc.2) < 2 ^ 63) cs ->
  exists ex,
    example_loop cs [] = (ex, Py.Ok ())
    /\ ((Forall (fun pc : Draw * Draw =>
                   ~ (date pc.1 = "2025-10-23"%string
                      /\ date pc.2 = "2025-10-25"%string)) cs
         /\ ex = [])
        \/ exists pre prev curr post,
             cs = pre ++ (prev, curr) :: post
             /\ Forall (fun pc : Draw * Draw =>
                          ~ (date pc.1 = "2025-10-23"%string
                             /\ date pc.2 = "2025-10-25"%string)) pre
             /\ date prev = "2025-10-23"%string
             /\ date curr = "2025-10-25"%string
             /\ Forall2 (fun (wrap : bool) o =>
                  exists e c,
                    pair_stats (numbers prev) (numbers curr) 2 wrap false
                    = Py.Ok e
                    /\ Py.int_truediv (100 * U_size e) POP_SIZE = Py.Ok c
                    /\ o = OutExample (if wrap then "wrap" else "no-wrap")
                                      (numbers prev) (numbers curr) e c)
                  [false; true] ex).
Proof. intros H. exact (example_loop_Ok cs [] H). Qed.

Lemma example_report_witness :
  exists ex,
    example_loop
      [ ({| date := "2025-10-21"; numbers := [1; 2] |},
         {| date := "2025-10-23"; numbers := [3; 14; 15] |});
        ({| date := "2025-10-23"; numbers := [3; 14; 15] |},
         {| date := "2025-10-25"; numbers := [4; 15; 40] |}) ] []
    = (ex, Py.Ok ())
    /\ length ex = 2%nat.
Proof.
  destruct (example_report
      [ ({| date := "2025-10-21"; numbers := [1; 2] |},
         {| date := "2025-10-23"; numbers := [3; 14; 15] |});
        ({| date := "2025-10-23"; numbers := [3; 14; 15] |},
         {| date := "2025-10-25"; numbers := [4; 15; 40] |}) ])
    as (ex & E & Hcase).
  - repeat constructor; vm_compute; reflexivity.
  - exists ex. split; [exact E|].
    destruct Hcase as [[Hno _]|(pre & prev & curr & post & _ & _ & _ & _ & H)].
    + exfalso. apply Forall_cons in Hno as [_ Hno].
      apply Forall_cons in Hno as [Hno _]. apply Hno.
      split; reflexivity.
    + apply Forall2_length in H. rewrite <- H. reflexivity.
Defined.

(** The kept draws, in whatever order they are handed on: [main] raises no
    exception, and the first item it prints is the count of draws. *)
Lemma main_on_kept_draws (data : list (string * list Z))
    (draws : list Draw) :
  Py.len data < 2 ^ 63 -> draws ≡ₚ load_draws data ->
  exists rest, main draws = (OutLoaded (Py.len draws) :: rest, Py.Ok ()).
Proof.
  intros Hdata Hperm.
  assert (Hv : Forall (fun d => Py.len (numbers d) <= 2 ^ 53) draws).
  { rewrite Hperm, load_draws_omap. apply Forall_forall. intros d Hd.
    apply list_elem_of_omap in Hd as (row & _ & Hk).
    destruct (kept_draw_Some row d Hk) as (_ & _ & _ & _ & _ & _ & Hl). lia. }
  assert (Hlen : Py.len draws < 2 ^ 63).
  { unfold Py.len in *. rewrite Hperm, load_draws_omap.
    assert (length (omap kept_draw data) <= length data)%nat; [|lia].
    clear. induction data as [|row data IH]; cbn [omap list_omap length];
      [lia|].
    destruct (kept_draw row); cbn [length]; lia. }
  destruct (decide (Py.len draws < 2)) as [Hs|Hs].
  - exists []. unfold main. rewrite bool_decide_eq_true_2 by exact Hs.
    reflexivity.
  - destruct (main_Ok draws ltac:(lia) Hv) as (res & ex & E & _).
    rewrite E. eexists. reflexivity.
Qed.

(** ** The loader's sort and the whole run *)

Lemma insert_by_key_Permutation (x : datetime * Draw)
    (l : list (datetime * Draw)) :
  insert_by_key x l ≡ₚ x :: l.
Proof.
  induction l as [|y l IH]; cbn [insert_by_key]; [reflexivity|].
  destruct (decide (datetime_lt y.1 x.1)); [|reflexivity].
  rewrite IH. apply perm_swap.
Qed.

Lemma sort_keyed_Permutation (l : list (datetime * Draw)) :
  foldr insert_by_key [] l ≡ₚ l.
Proof.
  induction l as [|x l IH]; cbn [foldr]; [reflexivity|].
  rewrite insert_by_key_Permutation, IH. reflexivity.
Qed.

Lemma datetime_not_lt_trans (a b c : datetime) :
  ~ datetime_lt b a -> ~ datetime_lt c b -> ~ datetime_lt c a.
Proof. unfold datetime_lt. lia. Qed.

Lemma datetime_lt_not_lt (a b : datetime) :
  datetime_lt a b -> ~ datetime_lt b a.
Proof. unfold datetime_lt. lia. Qed.

Lemma insert_by_key_sorted (x : datetime * Draw)
    (l : list (datetime * Draw)) :
  StronglySorted (fun a b : datetime * Draw => ~ datetime_lt b.1 a.1) l ->
  StronglySorted (fun a b : datetime * Draw => ~ datetime_lt b.1 a.1)
                 (insert_by_key x l).
Proof.
  induction 1 as [|y l Hl IH Hy]; cbn [insert_by_key].
  - repeat constructor.
  - destruct (decide (datetime_lt y.1 x.1)) as [Hlt|Hge].
    + constructor; [exact IH|].
      rewrite insert_by_key_Permutation. constructor; [|exact Hy].
      apply datetime_lt_not_lt. exact Hlt.
    + constructor; [constructor; assumption|].
      constructor; [exact Hge|].
      eapply Forall_impl; [exact Hy|]. intros z Hz. cbv beta in *.
      exact (datetime_not_lt_trans x.1 y.1 z.1 Hge Hz).
Qed.

Lemma sort_keyed_sorted (l : list (datetime * Draw)) :
  StronglySorted (fun a b : datetime * Draw => ~ datetime_lt b.1 a.1)
                 (foldr insert_by_key [] l).
Proof.
  induction l as [|x l IH]; cbn [foldr]; [constructor|].
  apply insert_by_key_sorted, IH.
Qed.

(** The keys: every date parses, or the first that does not raises. *)
Lemma keys_Ok (strptime : string -> Py.result datetime) (out : list Draw) :
  Forall (fun d => exists k, strptime (date d) = Py.Ok k) out ->
  exists keyed,
    mapM (fun r => k ← strptime (date r); mret (k, r)) out = Py.Ok keyed
    /\ keyed.*2 = out
    /\ Forall (fun kr : datetime * Draw =>
                 strptime (date kr.2) = Py.Ok kr.1) keyed.
Proof.
  induction 1 as [|d out (k & Hk) _ (keyed & E & H2 & Hf)].
  - exists []. split; [reflexivity|]. split; [reflexivity|constructor].
  - exists ((k, d) :: keyed). cbn [mapM]. rewrite Hk, !bind_Ok, E, bind_Ok.
    split; [reflexivity|]. split; [cbn [fmap list_fmap snd]; by rewrite H2|].
    constructor; [exact Hk|exact Hf].
Qed.

Lemma keys_Raise (strptime : string -> Py.result datetime)
    (pre post : list Draw) (d : Draw) (e : Py.exn) :
  Forall (fun d => exists k, strptime (date d) = Py.Ok k) pre ->
  strptime (date d) = Py.Raise e ->
  mapM (fun r => k ← strptime (date r); mret (k, r)) (pre ++ d :: post)
  = Py.Raise e.
Proof.
  intros Hpre Hd. induction Hpre as [|d' pre (k & Hk) _ IH]; cbn [app mapM].
  - rewrite Hd. reflexivity.
  - rewrite Hk, !bind_Ok, IH. reflexivity.
Qed.

Lemma sort_by_date_Ok (strptime : string -> Py.result datetime)
    (out : list Draw) :
  Forall (fun d => exists k, strptime (date d) = Py.Ok k) out ->
  exists keyed,
    sort_by_date strptime out = Py.Ok (keyed.*2)
    /\ keyed.*2 ≡ₚ out
    /\ Forall (fun kr : datetime * Draw =>
                 strptime (date kr.2) = Py.Ok kr.1) keyed
    /\ StronglySorted (fun a b : datetime * Draw => ~ datetime_lt b.1 a.1)
                      keyed.
Proof.
  intros H. destruct (keys_Ok strptime out H) as (keyed & E & H2 & Hf).
  exists (foldr insert_by_key [] keyed). unfold sort_by_date.
  rewrite E, bind_Ok. split; [reflexivity|]. split; [|split].
  - rewrite sort_keyed_Permutation, H2. reflexivity.
  - rewrite sort_keyed_Permutation. exact Hf.
  - apply sort_keyed_sorted.
Qed.

(** X23: the loader, its sort by date and the report together, for every
    date parser and all records (fewer than 2^63).  When the date of every
    kept draw parses, [load_draws] returns the kept draws in ascending
    order of date, and [main] raises no exception and prints the count of
    draws first.  When the date of a kept draw does not parse, the sort
    raises the parser's exception for the first such draw, and [main]
    ends with it before anything is printed. *)
Theorem main_of_data_outcome (strptime : string -> Py.result datetime)
    (data : list (string * list Z)) :
  Py.len data < 2 ^ 63 ->
  (Forall (fun d => exists k, strptime (date d) = Py.Ok k) (load_draws data) ->
   exists keyed rest,
     load_draws_sorted strptime data = Py.Ok (keyed.*2)
     /\ keyed.*2 ≡ₚ load_draws data
     /\ Forall (fun kr : datetime * Draw =>
                  strptime (date kr.2) = Py.Ok kr.1) keyed
     /\ StronglySorted (fun a b : datetime * Draw => ~ datetime_lt b.1 a.1)
                       keyed
     /\ main_of_data strptime data
        = (OutLoaded (Py.len (keyed.*2)) :: rest, Py.Ok ()))
  /\ (forall pre d post e,
        load_draws data = pre ++ d :: post ->
        Forall (fun d => exists k, strptime (date d) = Py.Ok k) pre ->
        strptime (date d) = Py.Raise e ->
        load_draws_sorted strptime data = Py.Raise e
        /\ main_of_data strptime data = ([], Py.Raise e)).
Proof.
  intros Hlen. split.
  - intros Hp.
    destruct (sort_by_date_Ok strptime (load_draws data) Hp)
      as (keyed & E & Hperm & Hf & Hs).
    destruct (main_on_kept_draws data (keyed.*2) Hlen Hperm) as (rest & Em).
    exists keyed, rest. unfold main_of_data, load_draws_sorted. rewrite E.
    split; [reflexivity|]. split; [exact Hperm|]. split; [exact Hf|].
    split; [exact Hs|exact Em].
  - intros pre d post e Hd Hpre He.
    assert (E : load_draws_sorted strptime data = Py.Raise e).
    { unfold load_draws_sorted, sort_by_date. rewrite Hd.
      rewrite (keys_Raise strptime pre post d e Hpre He). reflexivity. }
    split; [exact E|]. unfold main_of_data. rewrite E. reflexivity.
Qed.

Lemma main_of_data_outcome_witness :
  main_of_data
    (fun s => if decide (s = "2025-10-23"%string)
              then Py.Ok {| year := 2025; month := 10; day := 23 |}
              else Py.Raise Py.ValueError)
    [("2025-10-23"%string, [3; 14]); (""%string, [1; 2; 3])]
  = ([], Py.Raise Py.ValueError).
Proof.
  destruct (main_of_data_outcome
              (fun s => if decide (s = "2025-10-23"%string)
                        then Py.Ok {| year := 2025; month := 10; day := 23 |}
                        else Py.Raise Py.ValueError)
              [("2025-10-23"%string, [3; 14]); (""%string, [1; 2; 3])])
    as [_ H].
  - vm_compute. reflexivity.
  - destruct (H [ {| date := "2025-10-23"; numbers := [3; 14] |} ]
                {| date := ""; numbers := [1; 2; 3] |} [] Py.ValueError)
      as [_ Hm].
    + vm_compute. reflexivity.
    + repeat constructor. eexists. vm_compute. reflexivity.
    + vm_compute. reflexivity.
    + exact Hm.
Defined.
